(** * API-CNIG: the geometry and projection utilities

    A shallow embedding of [M/impl/utils] (the static class [Utils] and the
    GeoJSON reprojection helpers) and of [M/impl/ol/js/projections] (the CRS
    catalogue and its registration), with the properties of the written
    specification stated over it.

    JavaScript numbers are IEEE 754 binary64 values, so they are modelled by
    Rocq's primitive floats: every arithmetic operation and comparison below
    is the one the program performs. *)

From Stdlib Require Import ZArith Floats Lia.
From stdpp Require Import base option list strings gmap.
From Equations Require Import Equations.

Set Default Proof Using "Type".
Set Warnings "-inexact-float,-register-all".

(** ** JavaScript values used by the utilities *)

Module JS.

(** The outcome of a call: a value, or the [TypeError] the engine raises
    when a property of [undefined] or [null] is read. *)
Inductive result (A : Type) : Type :=
| Ok (a : A)
| TypeError.
Arguments Ok {A} a.
Arguments TypeError {A}.

Definition bind {A B} (r : result A) (k : A → result B) : result B :=
  match r with
  | Ok a => k a
  | TypeError => TypeError
  end.

Notation "x ←ʳ r ; k" := (bind r (λ x, k))
  (at level 100, r at next level, right associativity, only parsing).

(** Reading a property of a possibly absent object. *)
Definition deref {A} (o : option A) : result A :=
  match o with
  | Some a => Ok a
  | None => TypeError
  end.

(** [a[i]] where the array holds numbers and the read value is used as a
    number (in arithmetic or in a comparison): past the end the read gives
    [undefined], which [ToNumber] turns into [NaN]. *)
Definition idx (a : list float) (i : nat) : float :=
  default nan (a !! i).

(** [Math.floor(n / 2)] for an array length [n]. *)
Definition floor_half (n : nat) : nat := n / 2.

(** An integer as a number; [neg] chooses the sign of a zero result. The
    integers produced below are smaller than [2^53] in magnitude, so the
    conversion is exact. *)
Definition of_Z (n : Z) (neg : bool) : float :=
  SF2Prim (binary_normalize prec emax n 0 neg).

(** [Math.round]: the nearest integer, ties towards [+∞]; zeros, infinities
    and [NaN] are returned as they are. For [x = n·2^e] with [e < 0] the
    value [⌊x + 1/2⌋] is computed exactly on integers. *)
Definition Math_round (x : float) : float :=
  match Prim2SF x with
  | S754_finite s m e =>
      if (0 <=? e)%Z then x
      else
        let n := if s then Z.neg m else Z.pos m in
        of_Z (Z.shiftr (2 * n + 2 ^ (- e)) (1 - e)) s
  | _ => x
  end.

(** [Math.trunc]: the integer part, rounding towards zero. *)
Definition Math_trunc (x : float) : float :=
  match Prim2SF x with
  | S754_finite s m e =>
      if (0 <=? e)%Z then x
      else
        let n := if s then Z.neg m else Z.pos m in
        of_Z (Z.quot n (2 ^ (- e))) s
  | _ => x
  end.

(** [2 ** i] for a loop counter [i]. *)
Definition pow2 (i : nat) : float := Z.ldexp 1 (Z.of_nat i).

(** The truth value of a number, as [||] sees it. *)
Definition truthy (x : float) : bool :=
  negb (PrimFloat.eqb x 0) && PrimFloat.eqb x x.

(** A cell of an array of numbers that the program writes to: a number, or
    [undefined] (a hole, or a read past the end of another array). *)
Inductive jsval : Type :=
| Undefined
| Num (x : float).

(** [a[i]] as a value. *)
Definition get (a : list jsval) (i : nat) : jsval :=
  default Undefined (a !! i).

(** [a[i] = v]: in range the cell is replaced; past the end the array grows,
    the cells in between being holes. *)
Definition set (i : nat) (v : jsval) (a : list jsval) : list jsval :=
  if decide (i < length a) then <[i := v]> a
  else a ++ replicate (i - length a) Undefined ++ [v].

(** [a.pop()], for its effect on the array. *)
Definition pop {A} (a : list A) : list A := take (length a - 1) a.

(** [a.every(cb)], the callback receiving the element and its index; the
    first [false] stops the iteration. *)
Fixpoint every_from {A} (cb : A → nat → result bool) (i : nat) (a : list A)
  : result bool :=
  match a with
  | [] => Ok true
  | x :: a' =>
      b ←ʳ cb x i;
      if b : bool then every_from cb (S i) a' else Ok false
  end.

Definition every {A} (cb : A → nat → result bool) (a : list A)
  : result bool :=
  every_from cb 0 a.

(** [a.reduce(f)] without an initial value, on a non-empty array. *)
Definition reduce {A} (f : A → A → A) (a : list A) : result A :=
  match a with
  | [] => TypeError
  | x :: a' => Ok (foldl f x a')
  end.

(** [for (let i = 0; i < n; i += 1) acc = body(i, acc)], the bound [n] being
    a number. [fuel] bounds the iterations the model follows; [None] means
    it ran out before the loop ended. *)
Fixpoint for_lt {A} (fuel : nat) (n : float) (body : nat → A → A)
  (i : nat) (acc : A) : option A :=
  if (of_Z (Z.of_nat i) false <? n)%float then
    match fuel with
    | O => None
    | S fuel' => for_lt fuel' n body (S i) (body i acc)
    end
  else Some acc.

(** ** Arrays shared by reference

    A coordinate tuple is an array object: the program may hold several
    references to it and write through any of them. The store maps the
    address of each such array to its cells. *)

Definition loc : Type := nat.

Abbreviation store := (gmap loc (list jsval)).

(** Computations that read and write the store; [None] when an address is
    not allocated. *)
Definition St (A : Type) : Type := store → option (A * store).

Definition ret {A} (a : A) : St A := λ h, Some (a, h).

Definition bindS {A B} (m : St A) (k : A → St B) : St B :=
  λ h, match m h with
       | Some (a, h') => k a h'
       | None => None
       end.

Definition read (l : loc) : St (list jsval) :=
  λ h, match h !! l with
       | Some a => Some (a, h)
       | None => None
       end.

Definition write (l : loc) (a : list jsval) : St unit :=
  λ h, match h !! l with
       | Some _ => Some (tt, <[l := a]> h)
       | None => None
       end.

(** A [for] loop over an array that pushes one result per element. *)
Fixpoint forM {A B} (f : A → St B) (a : list A) : St (list B) :=
  match a with
  | [] => ret []
  | x :: a' => bindS (f x) (λ y, bindS (forM f a') (λ ys, ret (y :: ys)))
  end.

End JS.

Notation "x ←ˢ m ; k" := (JS.bindS m (λ x, k))
  (at level 100, m at next level, right associativity, only parsing).

Import JS.

(** ** The transform engine (OpenLayers [ol/proj], [ol/extent])

    The utilities read CRS metadata through [ol/proj] and merge extents
    with [ol/extent]. These few library functions are modelled as the
    library defines them; the projection mathematics itself stays a
    parameter of the functions that call it. *)

Module OL.

(** An [ol/proj/Projection] object, with the fields its constructor sets. *)
Record Projection : Type := {
  code_ : string;
  units_ : string;
  extent_ : option (list float);
  worldExtent_ : option (list float);
  axisOrientation_ : string;
  metersPerUnit_ : option float
}.

Definition MathPI : float := 3.141592653589793.

(** [METERS_PER_UNIT] of [ol/proj/Units]; a unit the table does not list
    reads as [undefined], a [NaN] once used in arithmetic. *)
Definition METERS_PER_UNIT (u : string) : float :=
  if decide (u = "radians") then 6370997 / (2 * MathPI)
  else if decide (u = "degrees") then (2 * MathPI * 6370997) / 360
  else if decide (u = "ft") then 0.3048
  else if decide (u = "m") then 1
  else if decide (u = "us-ft") then 1200 / 3937
  else nan.

(** [getMetersPerUnit() { return this.metersPerUnit_ ||
    METERS_PER_UNIT[this.units_]; }] *)
Definition getMetersPerUnit (p : Projection) : float :=
  match metersPerUnit_ p with
  | Some m => if truthy m then m else METERS_PER_UNIT (units_ p)
  | None => METERS_PER_UNIT (units_ p)
  end.

Definition getExtent (p : Projection) : option (list float) := extent_ p.

Definition getWorldExtent (p : Projection) : option (list float) :=
  worldExtent_ p.

(** The projection cache of [ol/proj/projections]: an object keyed by
    code, where [add] overwrites and [get] answers [null] on a miss. *)
Abbreviation cache := (gmap string Projection).

Definition add (code : string) (p : Projection) (c : cache) : cache :=
  <[code := p]> c.

(** [get as getProj] of [ol/proj], for a code. *)
Definition getProj (c : cache) (code : string) : option Projection :=
  c !! code.

(** [addProjection]: the projection is cached under its own code. *)
Definition addProjection (p : Projection) (c : cache) : cache :=
  add (code_ p) p c.

(** [addEquivalentProjections]: every projection of the list is added;
    the identity transforms it also installs between them carry no
    metadata. *)
Definition addEquivalentProjections (ps : list Projection) (c : cache)
  : cache :=
  foldl (λ c p, addProjection p c) c ps.

(** [getWidth] of [ol/extent]; the extent may be [undefined]. *)
Definition getWidth (extent : option (list float)) : result float :=
  e ←ʳ deref extent; Ok (idx e 2 - idx e 0)%float.

(** [extend] of [ol/extent]: grows [extent1] so that it covers [extent2].
    A comparison that succeeds has read two numbers, so each write is in
    range. *)
Definition extend (extent1 extent2 : list float) : list float :=
  let e := extent1 in
  let e := if (idx extent2 0 <? idx e 0)%float
           then <[0 := idx extent2 0]> e else e in
  let e := if (idx e 2 <? idx extent2 2)%float
           then <[2 := idx extent2 2]> e else e in
  let e := if (idx extent2 1 <? idx e 1)%float
           then <[1 := idx extent2 1]> e else e in
  let e := if (idx e 3 <? idx extent2 3)%float
           then <[3 := idx extent2 3]> e else e in
  e.

End OL.

Import OL.

(** ** The CRS catalogue ([M/impl/ol/js/projections]) *)

Record CRSDefinition : Type := {
  def : string;
  extent : list float;
  codes : list string;
  units : string;
  metersPerUnit : option float;
  axisOrientation : option string
}.

Definition extent4 (minX minY maxX maxY : float) : list float :=
  [minX; minY; maxX; maxY].

Definition proj4258 : CRSDefinition :=
  {| def := "+proj=longlat +ellps=GRS80 +towgs84=0,0,0,0,0,0,0 +no_defs";
     extent := extent4 (-16.1) 32.88 39.65 84.17;
     codes :=
       ["EPSG:4258";
        "urn:ogc:def:crs:EPSG::4258";
        "http://www.opengis.net/gml/srs/epsg.xml#4258"];
     units := "d";
     metersPerUnit := Some 111319.49079327358%float;
     axisOrientation := None |}.

Definition proj25828 : CRSDefinition :=
  {| def := "+proj=utm +zone=28 +ellps=GRS80 +towgs84=0,0,0,0,0,0,0 +units=m +no_defs";
     extent := extent4 397101.09 3638520.14 1034670.43 9625438.82;
     codes :=
       ["EPSG:25828";
        "urn:ogc:def:crs:EPSG::25828";
        "http://www.opengis.net/gml/srs/epsg.xml#25828"];
     units := "m";
     metersPerUnit := None;
     axisOrientation := None |}.

Definition proj25829 : CRSDefinition :=
  {| def := "+proj=utm +zone=29 +ellps=GRS80 +towgs84=0,0,0,0,0,0,0 +units=m +no_defs";
     extent := extent4 (-164850.78) 3660417.01 988728.57 9567111.85;
     codes :=
       ["EPSG:25829";
        "urn:ogc:def:crs:EPSG::25829";
        "http://www.opengis.net/gml/srs/epsg.xml#25829"];
     units := "m";
     metersPerUnit := None;
     axisOrientation := None |}.

Definition proj25830 : CRSDefinition :=
  {| def := "+proj=utm +zone=30 +ellps=GRS80 +towgs84=0,0,0,0,0,0,0 +units=m +no_defs";
     extent := extent4 (-729785.83) 3715125.82 940929.67 9518470.69;
     codes :=
       ["EPSG:25830";
        "urn:ogc:def:crs:EPSG::25830";
        "http://www.opengis.net/gml/srs/epsg.xml#23030"];
     units := "m";
     metersPerUnit := None;
     axisOrientation := None |}.

Definition proj25831 : CRSDefinition :=
  {| def := "+proj=utm +zone=31 +ellps=GRS80 +towgs84=0,0,0,0,0,0,0 +units=m +no_defs";
     extent := extent4 (-1300111.74) 3804640.43 893164.13 9478718.31;
     codes :=
       ["EPSG:25831";
        "urn:ogc:def:crs:EPSG::25831";
        "http://www.opengis.net/gml/srs/epsg.xml#25831"];
     units := "m";
     metersPerUnit := None;
     axisOrientation := None |}.

Definition proj4230 : CRSDefinition :=
  {| def := "+proj=longlat +ellps=intl +no_defs";
     extent := extent4 (-16.09882145355955) 25.711114310330917 48.60999527749605 84.16977336415472;
     codes :=
       ["EPSG:4230";
        "urn:ogc:def:crs:EPSG::4230";
        "http://www.opengis.net/gml/srs/epsg.xml#4230"];
     units := "d";
     metersPerUnit := Some 111319.49079327358%float;
     axisOrientation := None |}.

Definition proj23028 : CRSDefinition :=
  {| def := "+proj=utm +zone=28 +ellps=intl +towgs84=-87,-98,-121,0,0,0,0 +units=m +no_defs";
     extent := extent4 997517.95 3873475.61 2024693.05 8529441.99;
     codes :=
       ["EPSG:23028";
        "urn:ogc:def:crs:EPSG::23028";
        "http://www.opengis.net/gml/srs/epsg.xml#23028"];
     units := "m";
     metersPerUnit := None;
     axisOrientation := None |}.

Definition proj23029 : CRSDefinition :=
  {| def := "+proj=utm +zone=29 +ellps=intl +towgs84=-87,-98,-121,0,0,0,0 +units=m +no_defs";
     extent := extent4 448933.91 3860083.93 1860436.11 8381369.16;
     codes :=
       ["EPSG:23029";
        "urn:ogc:def:crs:EPSG::23029";
        "http://www.opengis.net/gml/srs/epsg.xml#23029"];
     units := "m";
     metersPerUnit := None;
     axisOrientation := None |}.

Definition proj23030 : CRSDefinition :=
  {| def := "+proj=utm +zone=30 +ellps=intl +towgs84=-87,-98,-121,0,0,0,0 +units=m +no_defs";
     extent := extent4 (-99844.71) 3879626.63 1682737.72 8251830.80;
     codes :=
       ["EPSG:23030";
        "urn:ogc:def:crs:EPSG::23030";
        "http://www.opengis.net/gml/srs/epsg.xml#23030"];
     units := "m";
     metersPerUnit := None;
     axisOrientation := None |}.

Definition proj23031 : CRSDefinition :=
  {| def := "+proj=utm +zone=31 +ellps=intl +towgs84=-87,-98,-121,0,0,0,0 +units=m +no_defs";
     extent := extent4 (-650883.16) 3932764.97 1493695.91 8141744.84;
     codes :=
       ["EPSG:23031";
        "urn:ogc:def:crs:EPSG::23031";
        "http://www.opengis.net/gml/srs/epsg.xml#23031"];
     units := "m";
     metersPerUnit := None;
     axisOrientation := None |}.

Definition proj4326 : CRSDefinition :=
  {| def := "+proj=longlat +datum=WGS84 +no_defs";
     extent := extent4 (-180) (-90) 180 90;
     codes :=
       ["EPSG:4326";
        "urn:ogc:def:crs:EPSG::4326";
        "urn:ogc:def:crs:OGC:1.3:CRS84";
        "http://www.opengis.net/def/crs/OGC/1.3/CRS84"];
     units := "d";
     metersPerUnit := Some 111319.49079327358%float;
     axisOrientation := Some "neu" |}.

Definition proj32627 : CRSDefinition :=
  {| def := "+proj=utm +zone=27 +ellps=WGS84 +datum=WGS84 +units=m +no_defs";
     extent := extent4 166021.4431 0.0000 833978.5569 9329005.1825;
     codes :=
       ["EPSG:32627";
        "urn:ogc:def:crs:EPSG::32627";
        "http://www.opengis.net/gml/srs/epsg.xml#32627"];
     units := "m";
     metersPerUnit := None;
     axisOrientation := None |}.

Definition proj32628 : CRSDefinition :=
  {| def := "+proj=utm +zone=28 +ellps=WGS84 +datum=WGS84 +units=m +no_defs";
     extent := extent4 166021.44317933178 0 833978.5568206678 9329005.18301614;
     codes :=
       ["EPSG:32628";
        "urn:ogc:def:crs:EPSG::32628";
        "http://www.opengis.net/gml/srs/epsg.xml#32628"];
     units := "m";
     metersPerUnit := None;
     axisOrientation := None |}.

Definition proj32629 : CRSDefinition :=
  {| def := "+proj=utm +zone=29 +ellps=WGS84 +datum=WGS84 +units=m +no_defs";
     extent := extent4 166021.4431 0.0000 833978.5569 9329005.1825;
     codes :=
       ["EPSG:32629";
        "urn:ogc:def:crs:EPSG::32629";
        "http://www.opengis.net/gml/srs/epsg.xml#32629"];
     units := "m";
     metersPerUnit := None;
     axisOrientation := None |}.

Definition proj32630 : CRSDefinition :=
  {| def := "+proj=utm +zone=30 +ellps=WGS84 +datum=WGS84 +units=m +no_defs";
     extent := extent4 166021.4431 0.0000 833978.5569 9329005.1825;
     codes :=
       ["EPSG:32630";
        "urn:ogc:def:crs:EPSG::32630";
        "http://www.opengis.net/gml/srs/epsg.xml#32630"];
     units := "m";
     metersPerUnit := None;
     axisOrientation := None |}.

Definition proj32631 : CRSDefinition :=
  {| def := "+proj=utm +zone=31 +ellps=WGS84 +datum=WGS84 +units=m +no_defs";
     extent := extent4 166021.4431 0.0000 833978.5569 9329005.1825;
     codes :=
       ["EPSG:32631";
        "urn:ogc:def:crs:EPSG::32631";
        "http://www.opengis.net/gml/srs/epsg.xml#32631"];
     units := "m";
     metersPerUnit := None;
     axisOrientation := None |}.

Definition proj4081 : CRSDefinition :=
  {| def := "+proj=longlat +ellps=GRS80 +towgs84=0,0,0,0,0,0,0 +no_defs";
     extent := extent4 (-21.93) 24.6 (-11.75) 32.76;
     codes :=
       ["EPSG:4081";
        "urn:ogc:def:crs:EPSG::4081";
        "http://www.opengis.net/gml/srs/epsg.xml#4081"];
     units := "d";
     metersPerUnit := Some 111319.49079327358%float;
     axisOrientation := None |}.

Definition proj4082 : CRSDefinition :=
  {| def := "+proj=utm +zone=27 +ellps=GRS80 +towgs84=0,0,0,0,0,0,0 +units=m +no_defs";
     extent := extent4 405849.71 2720975.60 1367994.77 3662797.15;
     codes :=
       ["EPSG:4082";
        "urn:ogc:def:crs:EPSG::4082";
        "http://www.opengis.net/gml/srs/epsg.xml#4082"];
     units := "m";
     metersPerUnit := None;
     axisOrientation := None |}.

Definition proj4083 : CRSDefinition :=
  {| def := "+proj=utm +zone=28 +ellps=GRS80 +towgs84=0,0,0,0,0,0,0 +units=m +no_defs ";
     extent := extent4 (-202677.94) 2738405.48 804488.92 3629357.10;
     codes :=
       ["EPSG:4083";
        "urn:ogc:def:crs:EPSG::4083";
        "http://www.opengis.net/gml/srs/epsg.xml#4083"];
     units := "m";
     metersPerUnit := None;
     axisOrientation := None |}.

Definition proj3395 : CRSDefinition :=
  {| def := "+proj=merc +ellps=WGS84 +datum=WGS84 +units=m +no_defs";
     extent := extent4 (-20026376.39) 15496570.74 20026376.39 18764656.23;
     codes :=
       ["EPSG:3395";
        "urn:ogc:def:crs:EPSG::3395";
        "http://www.opengis.net/gml/srs/epsg.xml#3395"];
     units := "m";
     metersPerUnit := None;
     axisOrientation := None |}.

(** Lista con las proyecciones anteriores. *)
Definition projections : list CRSDefinition :=
  [proj4326; proj32627; proj32628; proj32629; proj32630; proj32631;
   proj4258; proj25829; proj25828; proj25830; proj25831;
   proj4230; proj23028; proj23029; proj23030; proj23031;
   proj4081; proj4082; proj4083; proj3395].

(** The process-wide state the registration writes: the definition
    strings handed to [proj4.defs], and the projection cache of [ol/proj]. *)
Record Registry : Type := {
  proj4_defs : gmap string string;
  ol_cache : gmap string Projection
}.

(** [new OLProjection({ code, extent, units, metersPerUnit,
    axisOrientation })]: an absent [axisOrientation] defaults to ["enu"],
    and no world extent is given. *)
Definition OLProjection (code : string) (projection : CRSDefinition)
  : Projection :=
  {| code_ := code;
     units_ := units projection;
     extent_ := Some (extent projection);
     worldExtent_ := None;
     axisOrientation_ := default "enu" (axisOrientation projection);
     metersPerUnit_ := metersPerUnit projection |}.

(** One round of [projectionsParam.forEach]: the definition string is
    recorded under every code, one projection object is built per code,
    and the objects are added to the cache as equivalent projections. *)
Definition addProjection1 (r : Registry) (projection : CRSDefinition)
  : Registry :=
  let defs :=
    foldl (λ d code, <[code := def projection]> d)
          (proj4_defs r) (codes projection) in
  let olProjections :=
    (λ code, OLProjection code projection) <$> codes projection in
  {| proj4_defs := defs;
     ol_cache := addEquivalentProjections olProjections (ol_cache r) |}.

Definition addProjections (projectionsParam : list CRSDefinition)
  (r : Registry) : Registry :=
  foldl addProjection1 r projectionsParam.

(** [resolve] of the specification: the metadata a code answers to, which
    is [getProj] on the cache of the registry. *)
Definition resolve (r : Registry) (code : string) : option Projection :=
  getProj (ol_cache r) code.

(** The registry after the module has loaded, [r0] being the state the
    libraries start with. The [register(proj4)] that follows adds a
    projection only for a code the cache does not hold yet, so it leaves
    what the codes of the catalogue resolve to as it is. *)
Definition registered (r0 : Registry) : Registry :=
  addProjections projections r0.

Definition empty_registry : Registry :=
  {| proj4_defs := ∅; ol_cache := ∅ |}.

(** ** GeoJSON reprojection ([M/impl/utils], module-level functions) *)

(** The geometry of a GeoJSON feature: its [type] tag with [coordinates]
    nested as the tag requires. Every leaf is the address of a coordinate
    tuple [[x, y, altitude...]]; the arrays around the leaves are only ever
    read. [GeoJSONOther] stands for any other tag. *)
Inductive GeoJSONGeometry : Type :=
| GeoJSONPoint (coordinates : loc)
| GeoJSONMultiPoint (coordinates : list loc)
| GeoJSONLineString (coordinates : list loc)
| GeoJSONMultiLineString (coordinates : list (list loc))
| GeoJSONPolygon (coordinates : list (list loc))
| GeoJSONMultiPolygon (coordinates : list (list (list loc)))
| GeoJSONOther (type : string).

Record GeoJSONFeature : Type := {
  feature_id : option string;
  feature_properties : list (string * string);
  geometry : GeoJSONGeometry
}.

Section GeoJSON.

(** [getTransform] of [ol/proj]: the transform function between two codes,
    which answers a new array. *)
Variable getTransform : string → string → list jsval → list jsval.

(** Sustituye las coordenadas x, y en el conjunto de coordenadas:
    [newCoordinates] is another name for the array [oldCoordinates]. *)
Definition getFullCoordinates (oldCoordinates : loc) (newXY : list jsval)
  : St loc :=
  let newCoordinates := oldCoordinates in
  a ←ˢ read newCoordinates;
  _ ←ˢ write newCoordinates (set 0 (get newXY 0) a);
  a ←ˢ read newCoordinates;
  _ ←ˢ write newCoordinates (set 1 (get newXY 1) a);
  ret newCoordinates.

(** Dado un conjunto de coordenadas (x, y, altitud), devuelve [x, y]: a
    fresh copy, popped until at most two elements remain. *)
Definition getXY (coordinatesSet : list jsval) : list jsval :=
  let coordinateCopy := foldl (λ c x, c ++ [x]) [] coordinatesSet in
  Nat.iter (length coordinateCopy - 2) pop coordinateCopy.

Definition getTransformedCoordinates (codeProjection : string)
  (oldCoordinates : loc) : St loc :=
  let transformFunction := getTransform codeProjection "EPSG:4326" in
  a ←ˢ read oldCoordinates;
  getFullCoordinates oldCoordinates (transformFunction (getXY a)).

(** [{ ...previousFeature, geometry: { type, coordinates } }] *)
Definition createGeoJSONFeature (previousFeature : GeoJSONFeature)
  (g : GeoJSONGeometry) : GeoJSONFeature :=
  {| feature_id := feature_id previousFeature;
     feature_properties := feature_properties previousFeature;
     geometry := g |}.

(** The [switch] of [geojsonTo4326]: the new coordinates, under the tag of
    the previous geometry. For an unsupported tag they stay the empty
    array. *)
Definition newGeometry (codeProjection : string) (g : GeoJSONGeometry)
  : St GeoJSONGeometry :=
  let newDot := getTransformedCoordinates codeProjection in
  match g with
  | GeoJSONPoint c =>
      c' ←ˢ newDot c; ret (GeoJSONPoint c')
  | GeoJSONMultiPoint cs =>
      cs' ←ˢ forM newDot cs; ret (GeoJSONMultiPoint cs')
  | GeoJSONLineString cs =>
      cs' ←ˢ forM newDot cs; ret (GeoJSONLineString cs')
  | GeoJSONMultiLineString css =>
      css' ←ˢ forM (forM newDot) css; ret (GeoJSONMultiLineString css')
  | GeoJSONPolygon css =>
      css' ←ˢ forM (forM newDot) css; ret (GeoJSONPolygon css')
  | GeoJSONMultiPolygon csss =>
      csss' ←ˢ forM (forM (forM newDot)) csss;
      ret (GeoJSONMultiPolygon csss')
  | GeoJSONOther t => ret (GeoJSONOther t)
  end.

Definition geojsonTo4326 (featuresAsJSON : list GeoJSONFeature)
  (codeProjection : string) : St (list GeoJSONFeature) :=
  forM (λ featureAsJSON,
          g ←ˢ newGeometry codeProjection (geometry featureAsJSON);
          ret (createGeoJSONFeature featureAsJSON g))
       featuresAsJSON.

End GeoJSON.

(** ** Geometries and tiled render features *)

(** An [ol/geom] geometry with the coordinates it owns. *)
Inductive Geometry : Type :=
| Point (coordinates : list float)
| LineString (coordinates : list (list float))
| LinearRing (coordinates : list (list float))
| Polygon (coordinates : list (list (list float)))
| MultiPoint (coordinates : list (list float))
| MultiLineString (coordinates : list (list (list float)))
| MultiPolygon (coordinates : list (list (list (list float))))
| GeometryCollection (geometries : list Geometry)
| Circle (center : list float) (radius : float).

Definition getType (g : Geometry) : string :=
  match g with
  | Point _ => "Point"
  | LineString _ => "LineString"
  | LinearRing _ => "LinearRing"
  | Polygon _ => "Polygon"
  | MultiPoint _ => "MultiPoint"
  | MultiLineString _ => "MultiLineString"
  | MultiPolygon _ => "MultiPolygon"
  | GeometryCollection _ => "GeometryCollection"
  | Circle _ _ => "Circle"
  end.

(** The tags of [M/geom/WKT] and [ol/geom/GeometryType]. *)
Definition knownType (t : string) : bool :=
  bool_decide (t ∈ ["Point"; "LineString"; "LinearRing"; "Polygon";
                    "MultiPoint"; "MultiLineString"; "MultiPolygon";
                    "GeometryCollection"; "Circle"]).

(** [getPoints()] of a MultiPoint and [getLineStrings()] of a
    MultiLineString. *)
Definition getPoints (coordinates : list (list float)) : list Geometry :=
  Point <$> coordinates.

Definition getLineStrings (coordinates : list (list (list float)))
  : list Geometry :=
  LineString <$> coordinates.

(** The boundary indices of a render feature: [ends_] holds numbers, or
    arrays of numbers for a multi-polygon; [getEnds] and [getEndss] both
    answer it. *)
Inductive Ends : Type :=
| EndsFlat (ends : list nat)
| EndsNested (endss : list (list nat)).

(** An [ol/render/Feature], with the fields its constructor takes. *)
Record RenderFeature : Type := {
  type_ : string;
  flatCoordinates_ : list float;
  ends_ : Ends;
  properties_ : list (string * string);
  id_ : option string
}.

(** What [getCentroid] may be handed: nothing, a render feature, or a
    geometry. *)
Inductive GeometryArg : Type :=
| Absent
| Render (f : RenderFeature)
| Geom (g : Geometry).

(** What it answers: [null], [undefined] (an index past the end of the
    coordinates), the render feature, or a coordinate. *)
Inductive Centroid : Type :=
| CentroidNull
| CentroidUndefined
| CentroidRender (f : RenderFeature)
| Coordinate (c : list float).

(** [a[i]] for an array of geometries, as an argument. *)
Definition geometryAt (a : list Geometry) (i : nat) : GeometryArg :=
  match a !! i with
  | Some g => Geom g
  | None => Absent
  end.

(** [a[i]] for an array of coordinates, as a result. *)
Definition coordinateAt (a : list (list float)) (i : nat) : Centroid :=
  match a !! i with
  | Some c => Coordinate c
  | None => CentroidUndefined
  end.

(** Modelled from the spec: [isNullOrEmpty] of [M/util/Utils], which is not
    among the sources. The specification speaks of an argument that is
    absent; by its name the helper also holds of an empty array. An object
    that is present (a geometry, a projection, a number) is not empty. *)
Definition isNullOrEmpty {A} (o : option A) : bool :=
  match o with
  | None => true
  | Some _ => false
  end.

(** Modelled from the spec: [isNullOrEmpty] on an argument that is an array
    of numbers, which is empty when absent or of length zero. *)
Definition isNullOrEmptyArray {A} (o : option (list A)) : bool :=
  match o with
  | None | Some [] => true
  | Some (_ :: _) => false
  end.

(** The depth to which the calls of the centroid functions can nest below a
    geometry. *)
Fixpoint weight (g : Geometry) : nat :=
  match g with
  | Point _ | LineString _ | LinearRing _ | Circle _ _ => 1
  | Polygon _ | MultiPoint _ | MultiLineString _ => 2
  | MultiPolygon _ => 3
  | GeometryCollection gs => S (list_sum (weight <$> gs))
  end.

Definition weightArg (a : GeometryArg) : nat :=
  match a with
  | Geom g => weight g
  | _ => 0
  end.

Lemma weight_lookup (gs : list Geometry) i g :
  gs !! i = Some g → weight g ≤ list_sum (weight <$> gs).
Proof.
  revert i; induction gs as [|g' gs IH]; intros [|i]; csimpl; try done.
  - intros [= ->]. lia.
  - intros H. specialize (IH _ H). lia.
Qed.

Lemma weightArg_geometryAt_points cs i :
  weightArg (geometryAt (getPoints cs) i) < 2.
Proof.
  unfold geometryAt, getPoints. rewrite list_lookup_fmap.
  destruct (cs !! i); simpl; lia.
Qed.

Lemma weightArg_geometryAt_lines cs i :
  weightArg (geometryAt (getLineStrings cs) i) < 2.
Proof.
  unfold geometryAt, getLineStrings. rewrite list_lookup_fmap.
  destruct (cs !! i); simpl; lia.
Qed.

Lemma weightArg_geometryAt_member gs i :
  weightArg (geometryAt gs i) < S (list_sum (weight <$> gs)).
Proof.
  unfold geometryAt. destruct (gs !! i) eqn:E; simpl; [|lia].
  apply weight_lookup in E. lia.
Qed.

(** ** The static class [Utils] *)

Section Centroid.

(** [getInteriorPoint()] of a Polygon: a point the geometry library
    computes from the rings. *)
Variable interiorPoint : list (list (list float)) → list float.

Definition getInteriorPoint (coordinates : list (list (list float)))
  : Geometry :=
  Point (interiorPoint coordinates).

(** [getInteriorPoints()] of a MultiPolygon: the MultiPoint of the interior
    points of its polygons. *)
Definition getInteriorPoints
  (coordinates : list (list (list (list float)))) : Geometry :=
  MultiPoint (interiorPoint <$> coordinates).

(** Calcula el centro de la geometría. The [switch] has no case for a
    GeometryCollection, which falls to [default]. *)
Equations getCentroid (geometry : GeometryArg) : Centroid
  by wf (weightArg geometry) lt :=
getCentroid Absent := CentroidNull;
getCentroid (Render f) := CentroidRender f;
getCentroid (Geom (Point coordinates)) := Coordinate coordinates;
getCentroid (Geom (LineString coordinates)) :=
  coordinateAt coordinates (floor_half (length coordinates));
getCentroid (Geom (LinearRing coordinates)) :=
  coordinateAt coordinates (floor_half (length coordinates));
getCentroid (Geom (Polygon coordinates)) :=
  getCentroid (Geom (getInteriorPoint coordinates));
getCentroid (Geom (MultiPoint coordinates)) :=
  getCentroid (geometryAt (getPoints coordinates)
                 (floor_half (length (getPoints coordinates))));
getCentroid (Geom (MultiLineString coordinates)) :=
  getCentroid (geometryAt (getLineStrings coordinates)
                 (floor_half (length (getLineStrings coordinates))));
getCentroid (Geom (MultiPolygon coordinates)) :=
  getCentroid (Geom (getInteriorPoints coordinates));
getCentroid (Geom (Circle center _)) := Coordinate center;
getCentroid (Geom (GeometryCollection _)) := CentroidNull.
Next Obligation. apply weightArg_geometryAt_points. Qed.
Next Obligation. apply weightArg_geometryAt_lines. Qed.

(** Obtiene las coordenadas del centroide. The argument is dereferenced at
    once ([geometry.getType()]), so an absent one is a [TypeError]; a render
    feature has a type tag but none of the accessors the branches call. *)
Equations getCentroidCoordinate (geometry : GeometryArg) : result Centroid
  by wf (weightArg geometry) lt :=
getCentroidCoordinate Absent := TypeError;
getCentroidCoordinate (Render f) :=
  if knownType (type_ f) then TypeError else Ok CentroidUndefined;
getCentroidCoordinate (Geom (Point coordinates)) :=
  Ok (Coordinate coordinates);
getCentroidCoordinate (Geom (LineString coordinates)) :=
  Ok (coordinateAt coordinates (floor_half (length coordinates)));
getCentroidCoordinate (Geom (LinearRing coordinates)) :=
  Ok (coordinateAt coordinates (floor_half (length coordinates)));
getCentroidCoordinate (Geom (Polygon coordinates)) :=
  getCentroidCoordinate (Geom (getInteriorPoint coordinates));
getCentroidCoordinate (Geom (MultiPoint coordinates)) :=
  getCentroidCoordinate
    (geometryAt (getPoints coordinates)
       (floor_half (length (getPoints coordinates))));
getCentroidCoordinate (Geom (MultiLineString coordinates)) :=
  getCentroidCoordinate
    (geometryAt (getLineStrings coordinates)
       (floor_half (length (getLineStrings coordinates))));
getCentroidCoordinate (Geom (MultiPolygon coordinates)) :=
  getCentroidCoordinate (Geom (getInteriorPoints coordinates));
getCentroidCoordinate (Geom (Circle center _)) := Ok (Coordinate center);
getCentroidCoordinate (Geom (GeometryCollection geometries)) :=
  getCentroidCoordinate
    (geometryAt geometries (floor_half (length geometries))).
Next Obligation. apply weightArg_geometryAt_points. Qed.
Next Obligation. apply weightArg_geometryAt_lines. Qed.
Next Obligation. apply weightArg_geometryAt_member. Qed.

End Centroid.

(** Este método obtiene la cantidad de unidades por metros de esta
    proyección. *)
Definition getUnitsPerMeter (c : cache) (projectionCode : string)
  (meter : float) : result float :=
  projection ←ʳ deref (getProj c projectionCode);
  let metersPerUnit := getMetersPerUnit projection in
  Ok (meter / metersPerUnit)%float.

(** A number that may be [undefined], used in arithmetic. *)
Definition toNumber (x : option float) : float := default nan x.

(** Este método calcula las resoluciones. [newExtent], [newMinZoom] and
    [newMaxZoom] are assigned only when the argument they stand for is
    absent; otherwise they stay [undefined]. *)
Definition generateResolutions (fuel : nat) (projection : Projection)
  (extent : option (list float)) (minZoom maxZoom : option float)
  : result (option (list float)) :=
  let defaultMaxZoom := 20%float in
  let newExtent :=
    if isNullOrEmptyArray extent then getExtent projection else None in
  w ←ʳ getWidth newExtent;
  let size := (w / 256)%float in
  let newMinZoom := if isNullOrEmpty minZoom then Some 0%float else None in
  let newMaxZoom :=
    if isNullOrEmpty maxZoom then Some defaultMaxZoom else None in
  let zoomLevels := (toNumber newMaxZoom - toNumber newMinZoom)%float in
  Ok (for_lt fuel zoomLevels
        (λ i generatedResolutions,
           generatedResolutions ++ [(size / pow2 i)%float])
        0 []).

(** Este método obtiene la altura de una extensión. *)
Definition getExtentHeight (extent : list float) : float :=
  (idx extent 3 - idx extent 1)%float.

(** Este método obtiene el ancho de una extensión. *)
Definition getExtentWidth (extent : list float) : float :=
  (idx extent 2 - idx extent 0)%float.

(** An [ol/Feature]: its geometry may be missing. *)
Record OLFeature (G : Type) : Type := {
  olf_id : option string;
  olf_properties : list (string * string);
  olf_geometry : option G
}.
Arguments olf_id {G} _.
Arguments olf_properties {G} _.
Arguments olf_geometry {G} _.

(** An element of the [features] argument: a facade [M/feature/Feature],
    which wraps an [ol/Feature], or an [ol/Feature] itself. *)
Inductive FeatureArg : Type :=
| Feature (impl : OLFeature Geometry)
| OL_Feature (f : OLFeature Geometry).

(** [f instanceof Feature ? f.getImpl().getOLFeature() : f] *)
Definition olFeatureOf (f : FeatureArg) : OLFeature Geometry :=
  match f with
  | Feature impl => impl
  | OL_Feature f => f
  end.

Section Extent.

(** [getExtent()] of a geometry: the bounding box the geometry library
    keeps for it. *)
Variable geometryExtent : Geometry → list float.

(** [getCoordinates()] of a geometry known to be a Point. *)
Definition pointCoordinates (g : Geometry) : list float :=
  match g with
  | Point coordinates => coordinates
  | _ => []
  end.

Definition isPoint (g : Geometry) : bool :=
  bool_decide (getType g = "Point").

Fixpoint mapR {A B} (f : A → result B) (a : list A) : result (list B) :=
  match a with
  | [] => Ok []
  | x :: a' => y ←ʳ f x; ys ←ʳ mapR f a'; Ok (y :: ys)
  end.

(** Este método obtiene las extensiones de los objetos geográficos
    especificados. The answer is [null] ([None]) for no feature. *)
Definition getFeaturesExtent (c : cache) (features : list FeatureArg)
  (projectionCode : string) : result (option (list float)) :=
  let olFeatures := olFeatureOf <$> features in
  extents ←ʳ mapR (λ feature, g ←ʳ deref (olf_geometry feature);
                               Ok (geometryExtent g)) olFeatures;
  extents ←ʳ
    (if decide (length extents = 1) then
       feature ←ʳ deref (olFeatures !! 0);
       geometry ←ʳ deref (olf_geometry feature);
       if isPoint geometry then
         units ←ʳ getUnitsPerMeter c projectionCode 1000;
         let coordX := idx (pointCoordinates geometry) 0 in
         let coordY := idx (pointCoordinates geometry) 1 in
         Ok [[coordX - units; coordY - units;
              coordX + units; coordY + units]%float]
       else Ok extents
     else Ok extents);
  if decide (length extents = 0) then Ok None
  else e ←ʳ reduce extend extents; Ok (Some e).

End Extent.

Section TransformExtent.

(** [transformExtent] of [ol/proj]: the numeric transform of an extent,
    left to the transform engine. *)
Variable olTransformExtent :
  list float → Projection → option Projection → result (option (list float)).

(** A projection argument: a code to look up, or a projection object. *)
Definition ProjectionLike : Type := string + Projection.

Definition resolveProj (c : cache) (p : ProjectionLike)
  : option Projection :=
  match p with
  | inl code => getProj c code
  | inr projection => Some projection
  end.

(** Este método transforma la extensión. Si la extensión es la misma que la
    extensión de la proyección de origen, se devolverá la extensión de la
    proyección de destino. *)
Definition transformExtent (c : cache) (extent : list float)
  (srcProj tgtProj : ProjectionLike) : result (option (list float)) :=
  let olSrcProj := resolveProj c srcProj in
  let olTgtProj := resolveProj c tgtProj in
  src ←ʳ deref olSrcProj;
  let srcProjExtent := getExtent src in
  sameSrcProjExtent ←ʳ
    every (λ coord i,
             e ←ʳ deref srcProjExtent;
             Ok (if decide (i < 2) then (coord <=? idx e i)%float
                 else (idx e i <=? coord)%float))
          extent;
  if sameSrcProjExtent : bool then
    tgt ←ʳ deref olTgtProj; Ok (getExtent tgt)
  else olTransformExtent extent src olTgtProj.

End TransformExtent.

(** What [getGeometryFromRenderFeature] builds: the constructor of
    [ol/geom] it calls, with the arguments it passes. *)
Inductive NewGeometry : Type :=
| NewPoint (coordinates : list float)
| NewLineString (coordinates : list float)
| NewLinearRing (coordinates : list float)
| NewPolygon (coordinates : list float)
| NewMultiPoint (coordinates : list float)
| NewMultiLineString (coordinates : list float) (ends : Ends)
| NewMultiPolygon (coordinates : list float) (endss : Ends)
| NewGeometryCollection (geometries : list NewGeometry)
| NewCircle (center : list float).

(** A call of [RenderFeature.transform] on a render feature. *)
Record TransformCall : Type := {
  call_on : RenderFeature;
  call_source : Projection;
  call_destination : option Projection
}.

Section RenderFeatures.

(** What the render feature answers beyond its own fields, and what
    [transform] does to its coordinate buffer: the rendering library's. *)
Variable getGeometries : RenderFeature → list NewGeometry.
Variable getFlatInteriorPoint : RenderFeature → list float.
Variable transformFlat :
  Projection → option Projection → list float → list float.

(** [generateRandom] of [M/util/Utils]: the identifier it draws. *)
Variable generateRandom : string → string.

Definition getFlatCoordinates (f : RenderFeature) : list float :=
  flatCoordinates_ f.

Definition getEnds (f : RenderFeature) : Ends := ends_ f.

Definition getEndss (f : RenderFeature) : Ends := ends_ f.

(** [getGeometry()] of a render feature answers the feature itself. *)
Definition getGeometry (f : RenderFeature) : RenderFeature := f.

(** Este método copia un 'RenderFeature': the coordinate buffer and the
    boundary array are copied, the properties are shared. *)
Definition cloneOLRenderFeature (olRenderFeature : RenderFeature)
  : RenderFeature :=
  {| type_ := type_ olRenderFeature;
     flatCoordinates_ := getFlatCoordinates olRenderFeature;
     ends_ := getEnds olRenderFeature;
     properties_ := properties_ olRenderFeature;
     id_ := id_ olRenderFeature |}.

(** [clonedOLRenderFeature.transform(tileProjection, mapProjection)] *)
Definition transform (f : RenderFeature) (source : Projection)
  (destination : option Projection) : RenderFeature :=
  {| type_ := type_ f;
     flatCoordinates_ := transformFlat source destination
                           (flatCoordinates_ f);
     ends_ := ends_ f;
     properties_ := properties_ f;
     id_ := id_ f |}.

(** Este método crea una geometría OL a partir de un 'RenderFeature';
    [None] is the [null] of the [default] case. *)
Definition getGeometryFromRenderFeature (olRenderFeature : RenderFeature)
  : option NewGeometry :=
  let coordinates := getFlatCoordinates olRenderFeature in
  let ends := getEnds olRenderFeature in
  let endss := getEndss olRenderFeature in
  let type := type_ olRenderFeature in
  if decide (type = "Point") then Some (NewPoint coordinates)
  else if decide (type = "LineString") then Some (NewLineString coordinates)
  else if decide (type = "LinearRing") then Some (NewLinearRing coordinates)
  else if decide (type = "Polygon") then Some (NewPolygon coordinates)
  else if decide (type = "MultiPoint") then Some (NewMultiPoint coordinates)
  else if decide (type = "MultiLineString")
       then Some (NewMultiLineString coordinates ends)
  else if decide (type = "MultiPolygon")
       then Some (NewMultiPolygon coordinates endss)
  else if decide (type = "GeometryCollection")
       then Some (NewGeometryCollection (getGeometries olRenderFeature))
  else if decide (type = "Circle")
       then Some (NewCircle (getFlatInteriorPoint olRenderFeature))
  else None.

(** Este método transforma un 'RenderFeature' en un objeto geográfico
    estándar. The answer carries the calls of [transform] that were made.
    Both operands of the first test read [tileProjection]. *)
Definition olRenderFeature2olFeature (olRenderFeature : option RenderFeature)
  (tileProjection mapProjection : option Projection)
  : result (option (OLFeature NewGeometry) * list TransformCall) :=
  match olRenderFeature with
  | None => Ok (None, [])
  | Some rf =>
      let id := id_ rf in
      let properties := properties_ rf in
      decoded ←ʳ
        (if isNullOrEmpty tileProjection && isNullOrEmpty tileProjection then
           Ok (getGeometryFromRenderFeature (getGeometry rf), [])
         else
           tile ←ʳ deref tileProjection;
           let tileExtent := getExtent tile in
           let tileWorldExtent := getWorldExtent tile in
           if negb (isNullOrEmptyArray tileExtent)
              && negb (isNullOrEmptyArray tileWorldExtent) then
             let clonedOLRenderFeature := cloneOLRenderFeature rf in
             let transformed :=
               transform clonedOLRenderFeature tile mapProjection in
             Ok (getGeometryFromRenderFeature (getGeometry transformed),
                 [{| call_on := clonedOLRenderFeature;
                     call_source := tile;
                     call_destination := mapProjection |}])
           else Ok (None, []));
      let geometry := fst decoded in
      let calls := snd decoded in
      let olFeature :=
        {| olf_id := if negb (isNullOrEmpty id) then id
                     else Some (generateRandom "mapea_feature_");
           olf_properties := properties;
           olf_geometry := geometry |} in
      Ok (Some olFeature, calls)
  end.

End RenderFeatures.

(** The part of a map that [getWMTSScale] reads: the code of its
    projection, the size of its viewport in pixels, and the extent its view
    computes for a size. *)
Record Map : Type := {
  map_projection_code : string;
  map_size : list float;
  map_calculateExtent : list float → list float
}.

(** Este método obtiene la escala de las capas WMTS. *)
Definition getWMTSScale (c : cache) (map : Map) (exact : bool)
  : result float :=
  let projection := map_projection_code map in
  olProj ←ʳ deref (getProj c projection);
  let mpu := getMetersPerUnit olProj in
  let size := map_size map in
  let pix := idx size 0 in
  let pix2 := map_calculateExtent map size in
  let ang := (idx pix2 2 - idx pix2 0)%float in
  let scale := ((((mpu * ang) / pix) * 1000) / 0.28)%float in
  let scale :=
    if negb exact then
      if (1000 <=? scale)%float && (scale <=? 950000)%float then
        (Math_round (scale / 1000) * 1000)%float
      else if (950000 <=? scale)%float then
        (Math_round (scale / 1000000) * 1000000)%float
      else Math_round scale
    else scale in
  Ok (Math_trunc scale).

(** ** The scale rule as the specification words it

    [wmtsScale] follows the specification (section 4.6): the raw scale, the
    three rounding ranges, and the final truncation. It is compared with
    [getWMTSScale] below. *)

Definition nearest (unit x : float) : float :=
  (Math_round (x / unit) * unit)%float.

Definition roundScale (rawScale : float) : float :=
  if (rawScale <? 1000)%float then Math_round rawScale
  else if (1000 <=? rawScale)%float && (rawScale <=? 950000)%float
       then nearest 1000 rawScale
  else if (950000 <? rawScale)%float then nearest 1000000 rawScale
  else rawScale.

Definition wmtsScale (viewportPixelWidth : float)
  (projectedExtent : list float) (metersPerUnit : float) (exact : bool)
  : float :=
  let angularSpan := (idx projectedExtent 2 - idx projectedExtent 0)%float in
  let rawScale :=
    (metersPerUnit * angularSpan / viewportPixelWidth * 1000 / 0.28)%float in
  Math_trunc (if exact then rawScale else roundScale rawScale).

(** ** Auxiliary definitions and example inputs

    Notions the statements below use, and the concrete inputs on which the
    functions are evaluated. *)

(** The definition that answers for a code once a list of definitions is
    registered: the last one that lists it. *)
Definition owner (ds : list CRSDefinition) (code : string)
  : option CRSDefinition :=
  foldl (λ o d, if bool_decide (code ∈ codes d) then Some d else o) None ds.

(** The cache once the catalogue is registered, starting from nothing. *)
Definition catalogue : gmap string Projection :=
  ol_cache (registered empty_registry).

(** The third alias listed by [proj25830]; [proj23030] lists it too. *)
Definition gml23030 : string :=
  "http://www.opengis.net/gml/srs/epsg.xml#23030".

(** An extent that spans the validity extent of EPSG:25830 with room to
    spare. *)
Definition wide25830 : list float :=
  [-1000000; 0; 1000000; 10000000]%float.

(** The bounding box of a point, for the examples. *)
Definition pointExtent (g : Geometry) : list float :=
  match g with
  | Point [x; y] => [x; y; x; y]
  | _ => []
  end.

Definition featureOf (g : Geometry) : FeatureArg :=
  OL_Feature {| olf_id := None; olf_properties := [];
                olf_geometry := Some g |}.

(** A viewport 1000 pixels wide over 34567.68 m of EPSG:25830: its raw
    scale is 123456 up to the last digit of the division by 0.28. *)
Definition viewport25830 : Map :=
  {| map_projection_code := "EPSG:25830";
     map_size := [1000; 500]%float;
     map_calculateExtent := λ _, [0; 0; 34567.68; 100]%float |}.

(** The ladder the loop builds when it runs for [n] levels. *)
Definition ladder (size : float) (n : nat) : list float :=
  (λ i, (size / pow2 i)%float) <$> seq 0 n.

(** A tile projection with both extents, a render feature of one point, and
    a stand-in for the effect of [transform] on the buffer. *)
Definition tileProjection4096 : Projection :=
  {| code_ := "tile"; units_ := "tile-pixels";
     extent_ := Some [0; 0; 4096; 4096]%float;
     worldExtent_ := Some [0; 0; 10; 10]%float;
     axisOrientation_ := "enu"; metersPerUnit_ := None |}.

Definition renderPoint : RenderFeature :=
  {| type_ := "Point"; flatCoordinates_ := [2048; 1024]%float;
     ends_ := EndsFlat []; properties_ := []; id_ := Some "a" |}.

Definition scaleDown (_ : Projection) (_ : option Projection)
  (flat : list float) : list float :=
  (λ x, (x / 4096 * 10)%float) <$> flat.

(** The array a leaf holds once [getFullCoordinates] has run on it. *)
Definition overwritten (newXY a : list jsval) : list jsval :=
  set 1 (get newXY 1) (set 0 (get newXY 0) a).

(** A stand-in for the transform, which halves both ordinates, and a point
    of EPSG:25830 with an altitude, held in the array at address 0. *)
Definition halve (_ _ : string) (xy : list jsval) : list jsval :=
  (λ v, match v with Num x => Num (x / 2) | Undefined => Undefined end)
    <$> xy.

Definition pointFeature : GeoJSONFeature :=
  {| feature_id := Some "p"; feature_properties := [];
     geometry := GeoJSONPoint 0 |}.

Definition pointStore : gmap loc (list jsval) :=
  {[ 0 := [Num 500000; Num 4000000; Num 30] ]}.

(** ** Further notions for the properties of the code *)

(** A definition of the catalogue is usable when the projection built from
    it has 1 or 111319.49079327358 meters per unit and its validity extent
    has four ordinates, the lower ones below the upper ones. *)
Definition usable (d : CRSDefinition) : Prop :=
  (∀ code, getMetersPerUnit (OLProjection code d) = 1%float
           ∨ getMetersPerUnit (OLProjection code d)
             = 111319.49079327358%float)
  ∧ ∃ minX minY maxX maxY,
      extent d = [minX; minY; maxX; maxY]
      ∧ (minX <? maxX)%float = true ∧ (minY <? maxY)%float = true.

(** The coordinate tuples (by address) that a geometry, and a list of
    features, refer to. *)
Definition leaves (g : GeoJSONGeometry) : list loc :=
  match g with
  | GeoJSONPoint c => [c]
  | GeoJSONMultiPoint cs | GeoJSONLineString cs => cs
  | GeoJSONMultiLineString css | GeoJSONPolygon css => concat css
  | GeoJSONMultiPolygon csss => concat (concat csss)
  | GeoJSONOther _ => []
  end.

Definition featureLeaves (features : list GeoJSONFeature) : list loc :=
  concat ((λ f, leaves (geometry f)) <$> features).

(** Every address of [L] holds an array in the store. *)
Definition allocated (L : list loc) (h : gmap loc (list jsval)) : Prop :=
  ∀ l, l ∈ L → is_Some (h !! l).

(** What a run that only writes the first two cells of the arrays at [L]
    keeps of a store: the same addresses are allocated, the arrays outside
    [L] are as they were, and in every array the cells from index 2 on are
    as they were. *)
Definition keeps (L : list loc) (h h' : gmap loc (list jsval)) : Prop :=
  (∀ l, is_Some (h' !! l) ↔ is_Some (h !! l))
  ∧ (∀ l, l ∉ L → h' !! l = h !! l)
  ∧ (∀ l a a' i, h !! l = Some a → h' !! l = Some a' → 2 ≤ i →
                 a' !! i = a !! i).


(** A line of three points with altitudes and a point, in one store. *)
Definition lineFeature : GeoJSONFeature :=
  {| feature_id := Some "l"; feature_properties := [("name", "track")];
     geometry := GeoJSONLineString [1; 2; 3] |}.

Definition lineStore : gmap loc (list jsval) :=
  {[ 0 := [Num 500000; Num 4000000; Num 30];
     1 := [Num 2; Num 4; Num 100];
     2 := [Num 6; Num 8; Num 200];
     3 := [Num 10; Num 12; Num 300; Num 7] ]}.


(** A step that answers its argument and keeps the store outside the
    leaves of that argument. *)
Definition steady {A} (lv : A → list loc) (f : A → St A) : Prop :=
  ∀ x h, allocated (lv x) h →
         ∃ h', f x h = Some (x, h') ∧ keeps (lv x) h h'.


(** A number in the strict sense: any value but [NaN]. *)
Definition number (x : float) : Prop := (x =? x)%float = true.

(** An extent of four numbers, and what it means for an extent to cover
    another: its lower ordinates are at most, its upper ordinates at least,
    those of the other. *)
Definition properExtent (e : list float) : Prop :=
  ∃ minX minY maxX maxY,
    e = [minX; minY; maxX; maxY]
    ∧ number minX ∧ number minY ∧ number maxX ∧ number maxY.

Definition covers (r e : list float) : Prop :=
  (idx r 0 <=? idx e 0)%float = true ∧ (idx r 1 <=? idx e 1)%float = true
  ∧ (idx e 2 <=? idx r 2)%float = true ∧ (idx e 3 <=? idx r 3)%float = true.

(** The place of a value in the order of the numbers: its class (negative
    infinity, negative, zero, positive, positive infinity), then exponent
    and mantissa, reversed for the negative ones. *)
Definition SFkey (f : spec_float) : Z * Z * Z :=
  match f with
  | S754_infinity true => (-2, 0, 0)%Z
  | S754_finite true m e => (-1, - e, Z.neg m)%Z
  | S754_zero _ => (0, 0, 0)%Z
  | S754_finite false m e => (1, e, Z.pos m)%Z
  | S754_infinity false => (2, 0, 0)%Z
  | S754_nan => (3, 0, 0)%Z
  end.

Definition key_compare (a b : Z * Z * Z) : comparison :=
  match (a.1.1 ?= b.1.1)%Z with
  | Eq => match (a.1.2 ?= b.1.2)%Z with
          | Eq => (a.2 ?= b.2)%Z
          | o => o
          end
  | o => o
  end.

(** ** The attributions of the features in view (plugin [Attributions]) *)

(** [a.indexOf(x)]: the first index whose element is [x], or [-1]. The
    elements searched below are strings or [undefined], on which [===] is
    equality. *)
Fixpoint indexOf_from `{EqDecision A} (a : list A) (x : A) (i : Z) : Z :=
  match a with
  | [] => -1
  | y :: a' => if decide (y = x) then i else indexOf_from a' x (i + 1)
  end.

Definition indexOf `{EqDecision A} (a : list A) (x : A) : Z :=
  indexOf_from a x 0.

(** [a.filter(cb)], the callback receiving the element, its index and the
    array. *)
Fixpoint filter_from {A} (cb : A → Z → bool) (i : Z) (a : list A) : list A :=
  match a with
  | [] => []
  | x :: a' =>
      if cb x i then x :: filter_from cb (i + 1) a'
      else filter_from cb (i + 1) a'
  end.

Definition filterArray {A} (cb : A → Z → list A → bool) (a : list A)
  : list A :=
  filter_from (λ element index, cb element index a) 0 a.

(** [v || d] on the value of an attribute, a string or [undefined]: the
    empty string and [undefined] give way to [d]. *)
Definition orElse (v d : option string) : option string :=
  match v with
  | Some EmptyString | None => d
  | Some _ => v
  end.

(** An entry of the list of attributions: [{ attribution, url }]. *)
Record AttributionOption : Type := {
  attribution : option string;
  url : option string
}.

(** [map.getBbox()]: [{ x: { min, max }, y: { min, max } }]. *)
Record Bbox : Type := {
  bbox_x_min : float;
  bbox_x_max : float;
  bbox_y_min : float;
  bbox_y_max : float
}.

(** What [getMapAttributions] reads of the plugin and of its map: the
    features of [layer_], the bounding box of [map_], the names of the two
    attributes and the default link. *)
Record AttributionsState (F : Type) : Type := {
  layer_features : list F;
  map_bbox : Bbox;
  attributionParam_ : string;
  urlParam_ : string;
  defaultURL_ : option string
}.
Arguments layer_features {F}.
Arguments map_bbox {F}.
Arguments attributionParam_ {F}.
Arguments urlParam_ {F}.
Arguments defaultURL_ {F}.

Section Attributions.

(** The features of the facade with their [getAttribute], and the filter
    [intersect(feature).execute(features)] of [M/filter], stand outside the
    plugin; the filter is handed the ring of the polygon of the feature. *)
Context {F : Type}.
Variable getAttribute : F → string → option string.
Variable intersect : list (list (list float)) → list F → list F.

(** [updateBBoxFeature]: the coordinates of the polygon of the bounding box
    of the map. *)
Definition updateBBoxFeature (this : AttributionsState F)
  : list (list (list float)) :=
  let b := map_bbox this in
  [[ [bbox_x_min b; bbox_y_min b];
     [bbox_x_min b; bbox_y_max b];
     [bbox_x_max b; bbox_y_max b];
     [bbox_x_max b; bbox_y_min b];
     [bbox_x_min b; bbox_y_min b] ]].

(** The entry [getMapAttributions] makes of a feature. *)
Definition attributionOf (this : AttributionsState F) (feature : F)
  : AttributionOption :=
  {| attribution := getAttribute feature (attributionParam_ this);
     url := orElse (getAttribute feature (urlParam_ this))
                   (defaultURL_ this) |}.

(** The features the filter lets through. *)
Definition filteredFeatures (this : AttributionsState F) : list F :=
  let bboxFeature_ := updateBBoxFeature this in
  let featuresAttributions := layer_features this in
  intersect bboxFeature_ featuresAttributions.

Definition getMapAttributions (this : AttributionsState F)
  : list AttributionOption :=
  filterArray
    (λ element index array,
       bool_decide
         (indexOf (attribution <$> array) (attribution element) = index))
    (attributionOf this <$> filteredFeatures this).

End Attributions.

(** * Properties *)

(** ** Comparisons of numbers

    The comparisons of primitive floats are those of their specification
    ([SFcompare]); the few order facts the proofs need are derived from
    it. *)

Section FloatOrder.

Lemma SFcompare_antisym (a b : spec_float) :
  SFcompare b a = option_map CompOpp (SFcompare a b).
Proof.
  destruct a as [ [|] | [|] | | [|] m1 e1], b as [ [|] | [|] | | [|] m2 e2];
    try reflexivity; cbn [SFcompare option_map];
    rewrite (Z.compare_antisym e1 e2); destruct (e1 ?= e2)%Z; cbn [CompOpp];
    try reflexivity; f_equal;
    rewrite !Pos.compare_cont_spec; cbn [Pos.switch_Eq];
    rewrite (Pos.compare_antisym m1 m2); destruct (m1 ?= m2)%positive;
    reflexivity.
Qed.

Lemma SFcompare_None (a b : spec_float) :
  SFcompare a b = None → a = S754_nan ∨ b = S754_nan.
Proof.
  destruct a as [ [|] | [|] | | [|] m1 e1], b as [ [|] | [|] | | [|] m2 e2];
    cbn [SFcompare]; intros H; try discriminate H; auto.
Qed.

Lemma SFcompare_Eq_finite s m e (b : spec_float) :
  SFcompare (S754_finite s m e) b = Some Eq → b = S754_finite s m e.
Proof.
  destruct b as [ [|] | [|] | | s' m' e']; destruct s; cbn [SFcompare];
    try discriminate; destruct s'; try discriminate;
    destruct (Z.compare_spec e e') as [->| |]; cbn [CompOpp];
    try discriminate; rewrite Pos.compare_cont_spec; cbn [Pos.switch_Eq];
    destruct (Pos.compare_spec m m') as [->| |]; cbn [CompOpp];
    try discriminate; reflexivity.
Qed.

Lemma SFcompare_refl (a : spec_float) :
  a ≠ S754_nan → SFcompare a a = Some Eq.
Proof.
  destruct a as [ [|] | [|] | | [|] m e]; cbn [SFcompare]; try done;
    intros _; rewrite Z.compare_refl, Pos.compare_cont_refl; reflexivity.
Qed.

(** A positive number below [m1·2^e1] is not above a positive number with a
    larger exponent. *)
Lemma SFltb_below m1 e1 m2 e2 (a : spec_float) :
  (e1 < e2)%Z →
  SFltb a (S754_finite false m1 e1) = true →
  SFleb (S754_finite false m2 e2) a = false.
Proof.
  intros He. unfold SFltb, SFleb.
  destruct a as [ [|] | [|] | | [|] m e]; cbn [SFcompare];
    try congruence; try reflexivity.
  destruct (Z.compare_spec e e1), (Z.compare_spec e2 e);
    try lia; try congruence; try reflexivity.
Qed.

Lemma ltb_not_leb (x y : float) :
  (x <? y)%float = true → (y <=? x)%float = false.
Proof.
  rewrite FloatAxioms.ltb_spec, FloatAxioms.leb_spec. unfold SFltb, SFleb.
  rewrite (SFcompare_antisym (Prim2SF x) (Prim2SF y)).
  destruct (SFcompare (Prim2SF x) (Prim2SF y)) as [[| |]|]; cbn; congruence.
Qed.

Lemma ltb_leb (x y : float) :
  (x <? y)%float = true → (x <=? y)%float = true.
Proof.
  rewrite FloatAxioms.ltb_spec, FloatAxioms.leb_spec. unfold SFltb, SFleb.
  destruct (SFcompare (Prim2SF x) (Prim2SF y)) as [[| |]|]; cbn; congruence.
Qed.

Lemma eqb_leb (x y : float) :
  (x =? y)%float = true → (x <=? y)%float = true.
Proof.
  rewrite FloatAxioms.eqb_spec, FloatAxioms.leb_spec. unfold SFeqb, SFleb.
  destruct (SFcompare (Prim2SF x) (Prim2SF y)) as [[| |]|]; cbn; congruence.
Qed.

(** Two numbers that are not ordered either way: one of them is [NaN]. *)
Lemma unordered_nan (x y : float) :
  (x <? y)%float = false → (y <=? x)%float = false →
  Prim2SF x = S754_nan ∨ Prim2SF y = S754_nan.
Proof.
  rewrite FloatAxioms.ltb_spec, FloatAxioms.leb_spec. unfold SFltb, SFleb.
  rewrite (SFcompare_antisym (Prim2SF x) (Prim2SF y)).
  destruct (SFcompare (Prim2SF x) (Prim2SF y)) as [[| |]|] eqn:E; cbn;
    try congruence.
  intros _ _. by apply SFcompare_None.
Qed.

(** [y <= x] without [y < x], for a finite [y]: the two are equal. *)
Lemma leb_not_ltb_eq (x y : float) s m e :
  Prim2SF y = S754_finite s m e →
  (y <=? x)%float = true → (y <? x)%float = false → x = y.
Proof.
  intros Hy. rewrite FloatAxioms.ltb_spec, FloatAxioms.leb_spec, Hy. unfold SFltb, SFleb.
  destruct (SFcompare (S754_finite s m e) (Prim2SF x)) as [[| |]|] eqn:E;
    try congruence.
  intros _ _. apply SFcompare_Eq_finite in E.
  rewrite <- (SF2Prim_Prim2SF x), <- (SF2Prim_Prim2SF y). congruence.
Qed.

End FloatOrder.

(** ** Rounding and truncation on examples *)

Example Math_round_half : Math_round 2.5 = 3%float.
Proof. reflexivity. Qed.

Example Math_round_neg_half : Math_round (-2.5) = (-2)%float.
Proof. reflexivity. Qed.

Example Math_round_frac : Math_round 123.456 = 123%float.
Proof. reflexivity. Qed.

Example Math_trunc_neg : Math_trunc (-1.7) = (-1)%float.
Proof. reflexivity. Qed.

Example Math_trunc_big : Math_trunc 440914.28571428574 = 440914%float.
Proof. reflexivity. Qed.

Example pow2_3 : pow2 3 = 8%float.
Proof. reflexivity. Qed.

(** ** The scale calculator *)

Lemma Prim2SF_1000 :
  Prim2SF 1000 = S754_finite false 8796093022208000 (-43).
Proof. vm_compute. reflexivity. Qed.

Lemma Prim2SF_950000 :
  Prim2SF 950000 = S754_finite false 8160437862400000 (-33).
Proof. vm_compute. reflexivity. Qed.

Lemma below_1000_not_above_950000 (x : float) :
  (x <? 1000)%float = true → (950000 <=? x)%float = false.
Proof.
  rewrite FloatAxioms.ltb_spec, FloatAxioms.leb_spec.
  rewrite Prim2SF_1000, Prim2SF_950000.
  apply SFltb_below. reflexivity.
Qed.

Lemma Math_round_nan (x : float) :
  Prim2SF x = S754_nan → Math_round x = x.
Proof. intros H. unfold Math_round. rewrite H. reflexivity. Qed.

(** The two-way test of the program and the three ranges of the
    specification select the same rounding. *)
Lemma roundScale_branches (scale : float) :
  (if (1000 <=? scale)%float && (scale <=? 950000)%float
   then (Math_round (scale / 1000) * 1000)%float
   else if (950000 <=? scale)%float
        then (Math_round (scale / 1000000) * 1000000)%float
        else Math_round scale)
  = roundScale scale.
Proof.
  unfold roundScale, nearest.
  destruct (scale <? 1000)%float eqn:Hlt.
  { rewrite (ltb_not_leb _ _ Hlt), (below_1000_not_above_950000 _ Hlt).
    reflexivity. }
  destruct ((1000 <=? scale)%float && (scale <=? 950000)%float) eqn:Hin;
    [reflexivity|].
  destruct (950000 <? scale)%float eqn:Hgt.
  { rewrite (ltb_leb _ _ Hgt). reflexivity. }
  destruct (950000 <=? scale)%float eqn:Hge.
  { exfalso.
    pose proof (leb_not_ltb_eq _ _ _ _ _ Prim2SF_950000 Hge Hgt) as ->.
    vm_compute in Hin. discriminate Hin. }
  apply Math_round_nan.
  destruct (1000 <=? scale)%float eqn:Hle.
  - cbn [andb] in Hin.
    destruct (unordered_nan _ _ Hgt Hin) as [H|H]; [|exact H].
    rewrite Prim2SF_950000 in H. discriminate H.
  - destruct (unordered_nan _ _ Hlt Hle) as [H|H]; [exact H|].
    rewrite Prim2SF_1000 in H. discriminate H.
Qed.

(** The three ranges of [roundScale], each under its own condition. *)
Lemma roundScale_ranges (rawScale : float) :
  ((rawScale <? 1000)%float = true → roundScale rawScale = Math_round rawScale)
  ∧ ((1000 <=? rawScale)%float = true → (rawScale <=? 950000)%float = true →
     roundScale rawScale = nearest 1000 rawScale)
  ∧ ((950000 <? rawScale)%float = true →
     roundScale rawScale = nearest 1000000 rawScale).
Proof.
  unfold roundScale. split; [|split].
  - intros ->. reflexivity.
  - intros H1 H2. destruct (rawScale <? 1000)%float eqn:Hlt.
    + rewrite (ltb_not_leb _ _ Hlt) in H1. discriminate H1.
    + rewrite H1, H2. reflexivity.
  - intros Hgt. destruct (rawScale <? 1000)%float eqn:Hlt.
    + pose proof (below_1000_not_above_950000 _ Hlt) as Hb.
      rewrite (ltb_leb _ _ Hgt) in Hb. discriminate Hb.
    + rewrite (ltb_not_leb _ _ Hgt), andb_false_r, Hgt. reflexivity.
Qed.

(** C6. For every map whose projection code is registered, with
    [rawScale = (metersPerUnit * (extent[2] - extent[0]) / pixelWidth)
    * 1000 / 0.28]: when [exact] is set [getWMTSScale] answers the raw
    scale truncated to an integer; otherwise it answers, truncated to an
    integer as well, the raw scale rounded to the nearest 1 if it is below
    1000, to the nearest 1000 if it lies from 1000 to 950000, and to the
    nearest 1000000 if it is above 950000. In all cases the answer is the
    [wmtsScale] of the specification, and under that rounding 123456
    becomes 123000. *)
Theorem getWMTSScale_wmtsScale (c : gmap string Projection) (map : Map)
  (olProj : Projection) :
  getProj c (map_projection_code map) = Some olProj →
  let pixelWidth := idx (map_size map) 0 in
  let extent := map_calculateExtent map (map_size map) in
  let rawScale :=
    (getMetersPerUnit olProj * (idx extent 2 - idx extent 0) / pixelWidth
     * 1000 / 0.28)%float in
  getWMTSScale c map true = Ok (Math_trunc rawScale)
  ∧ ((rawScale <? 1000)%float = true →
     getWMTSScale c map false = Ok (Math_trunc (Math_round rawScale)))
  ∧ ((1000 <=? rawScale)%float = true → (rawScale <=? 950000)%float = true →
     getWMTSScale c map false
     = Ok (Math_trunc (Math_round (rawScale / 1000) * 1000)%float))
  ∧ ((950000 <? rawScale)%float = true →
     getWMTSScale c map false
     = Ok (Math_trunc (Math_round (rawScale / 1000000) * 1000000)%float))
  ∧ (∀ exact,
       getWMTSScale c map exact
       = Ok (wmtsScale pixelWidth extent (getMetersPerUnit olProj) exact))
  ∧ Math_trunc (Math_round (123456 / 1000) * 1000)%float = 123000%float.
Proof.
  intros Hproj pixelWidth extent rawScale.
  assert (Hspec : ∀ exact,
    getWMTSScale c map exact
    = Ok (wmtsScale pixelWidth extent (getMetersPerUnit olProj) exact)).
  { intros exact. unfold getWMTSScale, wmtsScale. rewrite Hproj.
    cbn [deref bind]. do 2 f_equal. destruct exact; cbn [negb]; [reflexivity|].
    apply roundScale_branches. }
  assert (Hfalse : getWMTSScale c map false
                   = Ok (Math_trunc (roundScale rawScale)))
    by apply Hspec.
  destruct (roundScale_ranges rawScale) as (R1 & R2 & R3).
  repeat split.
  - apply Hspec.
  - intros H. rewrite Hfalse, (R1 H). reflexivity.
  - intros H1 H2. rewrite Hfalse, (R2 H1 H2). reflexivity.
  - intros H. rewrite Hfalse, (R3 H). reflexivity.
  - exact Hspec.
Qed.

Lemma getWMTSScale_wmtsScale_witness :
  getProj catalogue "EPSG:25830" = Some (OLProjection "EPSG:25830" proj25830)
  ∧ getWMTSScale catalogue viewport25830 false = Ok 123000%float.
Proof.
  assert (H : getProj catalogue (map_projection_code viewport25830)
              = Some (OLProjection "EPSG:25830" proj25830))
    by (vm_compute; reflexivity).
  split; [exact H|].
  destruct (getWMTSScale_wmtsScale catalogue viewport25830 _ H)
    as (_ & _ & Hmid & _).
  rewrite Hmid; vm_compute; reflexivity.
Defined.

(** ** The extent engine: [transformExtent] *)

Lemma every_from_true {A} (cb : A → nat → result bool) (a : list A) i :
  (∀ j x, a !! j = Some x → cb x (i + j) = Ok true) →
  every_from cb i a = Ok true.
Proof.
  revert i. induction a as [|x a IH]; intros i H; cbn [every_from];
    [reflexivity|].
  rewrite <- (Nat.add_0_r i) at 1. rewrite (H 0 x eq_refl). cbn [bind].
  apply IH. intros j y Hj.
  replace (S i + j) with (i + S j) by lia. by apply H.
Qed.

(** C1. For every extent and every pair of resolved projections, the
    source having a validity extent: if each of the first two ordinates of
    the extent is at most the ordinate of the source extent at its index,
    and each later ordinate is at least that ordinate, then
    [transformExtent] answers the validity extent of the target projection
    itself, and the numeric transform is not consulted. In particular a
    source extent made of numbers (no [NaN]) is sent to the target extent. *)
Theorem transformExtent_short_circuit
  (olTransformExtent : list float → Projection → option Projection →
                       result (option (list float)))
  (c : gmap string Projection) (extent : list float)
  (srcProj tgtProj : ProjectionLike) (src tgt : Projection)
  (srcExtent : list float) :
  resolveProj c srcProj = Some src →
  resolveProj c tgtProj = Some tgt →
  getExtent src = Some srcExtent →
  ((∀ i coord, extent !! i = Some coord →
      if decide (i < 2) then (coord <=? idx srcExtent i)%float = true
      else (idx srcExtent i <=? coord)%float = true) →
   transformExtent olTransformExtent c extent srcProj tgtProj
   = Ok (getExtent tgt))
  ∧ ((∀ x, x ∈ srcExtent → (x =? x)%float = true) →
     transformExtent olTransformExtent c srcExtent srcProj tgtProj
     = Ok (getExtent tgt)).
Proof.
  intros Hsrc Htgt Hext.
  assert (Hgen : ∀ e : list float,
    (∀ i coord, e !! i = Some coord →
       if decide (i < 2) then (coord <=? idx srcExtent i)%float = true
       else (idx srcExtent i <=? coord)%float = true) →
    transformExtent olTransformExtent c e srcProj tgtProj
    = Ok (getExtent tgt)).
  { intros e H. unfold transformExtent, every.
    rewrite Hsrc, Htgt. cbn [deref bind]. rewrite Hext.
    rewrite every_from_true; [reflexivity|].
    intros j x Hj. cbn [bind deref Nat.add]. f_equal.
    specialize (H j x Hj). by destruct (decide (j < 2)). }
  split; [apply Hgen|].
  intros Hnum. apply Hgen. intros i coord Hi.
  assert (Hidx : idx srcExtent i = coord)
    by (unfold idx; rewrite Hi; reflexivity).
  rewrite Hidx, (eqb_leb coord coord).
  - by destruct (decide (i < 2)).
  - apply Hnum. by eapply list_elem_of_lookup_2.
Qed.

Lemma transformExtent_short_circuit_witness :
  transformExtent (λ _ _ _, TypeError) catalogue wide25830
    (inl "EPSG:25830") (inl "EPSG:4326")
  = Ok (Some [-180; -90; 180; 90]%float)
  ∧ transformExtent (λ _ _ _, TypeError) catalogue (extent proj25830)
      (inl "EPSG:25830") (inl "EPSG:4326")
    = Ok (Some [-180; -90; 180; 90]%float).
Proof.
  pose proof (transformExtent_short_circuit (λ _ _ _, TypeError) catalogue
    wide25830 (inl "EPSG:25830") (inl "EPSG:4326")
    (OLProjection "EPSG:25830" proj25830) (OLProjection "EPSG:4326" proj4326)
    (extent proj25830)) as H.
  destruct H as [H1 H2]; [vm_compute; reflexivity ..|].
  split.
  - apply H1. clear. intros [|[|[|[|i]]]] coord Hi; cbn in Hi;
      try discriminate Hi; injection Hi as <-; vm_compute; reflexivity.
  - apply H2. clear. apply Forall_forall.
    cbv [extent proj25830 extent4]. repeat constructor.
Defined.

(** ** The extent engine: [getFeaturesExtent] *)

Lemma mapR_geometries (geometryExtent : Geometry → list float)
  (fs : list (OLFeature Geometry)) (gs : list Geometry) :
  Forall2 (λ f g, olf_geometry f = Some g) fs gs →
  mapR (λ feature, g ←ʳ deref (olf_geometry feature);
                   Ok (geometryExtent g)) fs
  = Ok (geometryExtent <$> gs).
Proof.
  induction 1 as [|f g fs gs Hf _ IH]; cbn [mapR]; [reflexivity|].
  rewrite Hf. cbn [deref bind]. rewrite IH. reflexivity.
Qed.

(** [extend] on two extents of four ordinates: the lower ordinates take
    the smaller value and the upper ordinates the larger one. *)
Lemma extend_min_max (a0 a1 a2 a3 b0 b1 b2 b3 : float) :
  extend [a0; a1; a2; a3] [b0; b1; b2; b3]
  = [if (b0 <? a0)%float then b0 else a0;
     if (b1 <? a1)%float then b1 else a1;
     if (a2 <? b2)%float then b2 else a2;
     if (a3 <? b3)%float then b3 else a3].
Proof.
  unfold extend. cbn [idx lookup list_lookup default from_option id].
  destruct (b0 <? a0)%float; cbn;
    destruct (a2 <? b2)%float; cbn;
    destruct (b1 <? a1)%float; cbn;
    destruct (a3 <? b3)%float; reflexivity.
Qed.

(** C7. For a feature set of exactly one feature whose geometry is a
    Point, [getFeaturesExtent] answers the square centred on the point with
    half-width 1000 divided by the meters per unit of the projection; for
    the point (0, 0) and one meter per unit that is
    [-1000, -1000, 1000, 1000]. For two or more features it answers the
    per-feature extents merged pairwise by [extend] (the component-wise
    minimum of the lower and maximum of the upper ordinates), with no
    buffer. *)
Theorem getFeaturesExtent_point_buffer
  (geometryExtent : Geometry → list float) (c : gmap string Projection)
  (projectionCode : string) :
  (∀ f coordinates projection,
     olf_geometry (olFeatureOf f) = Some (Point coordinates) →
     getProj c projectionCode = Some projection →
     let units := (1000 / getMetersPerUnit projection)%float in
     let x := idx coordinates 0 in
     let y := idx coordinates 1 in
     getFeaturesExtent geometryExtent c [f] projectionCode
     = Ok (Some [x - units; y - units; x + units; y + units]%float))
  ∧ (∀ f projection,
       olf_geometry (olFeatureOf f) = Some (Point [0; 0]%float) →
       getProj c projectionCode = Some projection →
       getMetersPerUnit projection = 1%float →
       getFeaturesExtent geometryExtent c [f] projectionCode
       = Ok (Some [-1000; -1000; 1000; 1000]%float))
  ∧ (∀ f1 f2 fs g1 g2 gs,
       Forall2 (λ f g, olf_geometry (olFeatureOf f) = Some g)
               (f1 :: f2 :: fs) (g1 :: g2 :: gs) →
       getFeaturesExtent geometryExtent c (f1 :: f2 :: fs) projectionCode
       = Ok (Some (foldl extend (geometryExtent g1)
                     (geometryExtent <$> g2 :: gs)))).
Proof.
  assert (Hone : ∀ f coordinates projection,
     olf_geometry (olFeatureOf f) = Some (Point coordinates) →
     getProj c projectionCode = Some projection →
     getFeaturesExtent geometryExtent c [f] projectionCode
     = Ok (Some [idx coordinates 0 - 1000 / getMetersPerUnit projection;
                 idx coordinates 1 - 1000 / getMetersPerUnit projection;
                 idx coordinates 0 + 1000 / getMetersPerUnit projection;
                 idx coordinates 1 + 1000 / getMetersPerUnit projection
                ]%float)).
  { intros f coordinates projection Hg Hp.
    unfold getFeaturesExtent, getUnitsPerMeter.
    cbn [fmap list_fmap mapR]. rewrite Hg. cbn [deref bind length].
    destruct (decide (1 = 1)) as [_|[]]; [|reflexivity].
    cbn [lookup list_lookup deref bind]. rewrite Hg. cbn [deref bind].
    replace (isPoint (Point coordinates)) with true by reflexivity.
    rewrite Hp. reflexivity. }
  split; [exact Hone|]. split.
  - intros f projection Hg Hp Hmpu. rewrite (Hone _ _ _ Hg Hp), Hmpu.
    vm_compute. reflexivity.
  - intros f1 f2 fs g1 g2 gs HF. unfold getFeaturesExtent.
    rewrite (mapR_geometries geometryExtent _ (g1 :: g2 :: gs)).
    + reflexivity.
    + by apply Forall2_fmap_l.
Qed.

Lemma getFeaturesExtent_point_buffer_witness :
  getFeaturesExtent pointExtent catalogue [featureOf (Point [0; 0]%float)]
    "EPSG:25830"
  = Ok (Some [-1000; -1000; 1000; 1000]%float)
  ∧ getFeaturesExtent pointExtent catalogue
      [featureOf (Point [0; 0]%float); featureOf (Point [5; 7]%float)]
      "EPSG:25830"
    = Ok (Some [0; 0; 5; 7]%float).
Proof.
  destruct (getFeaturesExtent_point_buffer pointExtent catalogue
              "EPSG:25830") as (_ & H2 & H3).
  split.
  - apply (H2 _ (OLProjection "EPSG:25830" proj25830));
      vm_compute; reflexivity.
  - rewrite (H3 _ _ [] (Point [0; 0]%float) (Point [5; 7]%float) []).
    + vm_compute. reflexivity.
    + repeat constructor.
Defined.

(** ** The centroid engine *)

Lemma median_in_range {A} (a : list A) :
  a ≠ [] → ∃ x, a !! floor_half (length a) = Some x.
Proof.
  intros Ha. apply lookup_lt_is_Some. unfold floor_half.
  destruct a as [|x a]; [done|]. apply Nat.div_lt; cbn [length]; lia.
Qed.

(** C9. For every LineString or LinearRing with at least one coordinate,
    the centroid is the coordinate at index [floor(n / 2)], both for
    [getCentroid] and for [getCentroidCoordinate]; for the five coordinates
    [[0,0],[1,1],[2,2],[3,3],[4,4]] it is [[2,2]]. *)
Theorem getCentroid_line_median
  (interiorPoint : list (list (list float)) → list float)
  (coordinates : list (list float)) :
  coordinates ≠ [] →
  (∃ c, coordinates !! floor_half (length coordinates) = Some c
        ∧ getCentroid interiorPoint (Geom (LineString coordinates))
          = Coordinate c
        ∧ getCentroid interiorPoint (Geom (LinearRing coordinates))
          = Coordinate c
        ∧ getCentroidCoordinate interiorPoint (Geom (LineString coordinates))
          = Ok (Coordinate c)
        ∧ getCentroidCoordinate interiorPoint (Geom (LinearRing coordinates))
          = Ok (Coordinate c))
  ∧ getCentroid interiorPoint
      (Geom (LineString [[0; 0]; [1; 1]; [2; 2]; [3; 3]; [4; 4]]%float))
    = Coordinate [2; 2]%float.
Proof.
  intros Hne. split.
  - destruct (median_in_range coordinates Hne) as [c Hc]. exists c.
    simp getCentroid getCentroidCoordinate. unfold coordinateAt.
    rewrite Hc. auto.
  - simp getCentroid. reflexivity.
Qed.

Lemma getCentroid_line_median_witness :
  getCentroid (λ _, []) (Geom (LinearRing [[0; 0]; [4; 0]; [4; 3]; [0; 0]]%float))
  = Coordinate [4; 3]%float.
Proof.
  destruct (getCentroid_line_median (λ _, [])
              [[0; 0]; [4; 0]; [4; 3]; [0; 0]]%float) as [(c & Hc & _ & H & _) _];
    [discriminate|].
  rewrite H. injection Hc as <-. reflexivity.
Defined.

(** C10. For every render feature, [getCentroid] answers the render feature
    it was given: neither a coordinate nor [null]. *)
Theorem getCentroid_render_feature
  (interiorPoint : list (list (list float)) → list float)
  (f : RenderFeature) :
  getCentroid interiorPoint (Render f) = CentroidRender f.
Proof. simp getCentroid. reflexivity. Qed.

(** C8, as the program behaves. [getCentroid] has no case for a
    GeometryCollection: whatever its members, the answer is [null]. The
    sibling [getCentroidCoordinate] does recurse on the member at index
    [floor(n / 2)]. *)
Theorem getCentroid_collection_null
  (interiorPoint : list (list (list float)) → list float)
  (geometries : list Geometry) :
  getCentroid interiorPoint (Geom (GeometryCollection geometries))
  = CentroidNull
  ∧ getCentroidCoordinate interiorPoint
      (Geom (GeometryCollection geometries))
    = getCentroidCoordinate interiorPoint
        (geometryAt geometries (floor_half (length geometries))).
Proof. simp getCentroid getCentroidCoordinate. split; reflexivity. Qed.

(** A collection of one point: [getCentroid] answers [null] where
    [getCentroidCoordinate] answers the point. *)
Example getCentroid_collection_of_point :
  getCentroid (λ _, []) (Geom (GeometryCollection [Point [1; 2]%float]))
  = CentroidNull
  ∧ getCentroidCoordinate (λ _, [])
      (Geom (GeometryCollection [Point [1; 2]%float]))
    = Ok (Coordinate [1; 2]%float).
Proof. split; reflexivity. Qed.

(** ** The resolution generator *)

(** With every optional argument absent the defaults apply: twenty levels
    over the validity extent of the projection. *)
Lemma generateResolutions_defaults (fuel : nat) (projection : Projection)
  (e : list float) :
  getExtent projection = Some e → 20 ≤ fuel →
  generateResolutions fuel projection None None None
  = Ok (Some (ladder ((idx e 2 - idx e 0) / 256)%float 20)).
Proof.
  intros He Hfuel. unfold generateResolutions.
  cbn [isNullOrEmptyArray isNullOrEmpty]. rewrite He. cbn [getWidth deref bind].
  do 2 f_equal. replace fuel with (20 + (fuel - 20)) by lia.
  generalize (fuel - 20) as k. intros k.
  generalize ((idx e 2 - idx e 0) / 256)%float as size. intros size.
  cbn -[PrimFloat.div pow2]. destruct k; reflexivity.
Qed.

(** The arithmetic of the specification's example: a width of 2560 over
    three levels. *)
Example ladder_2560 : ladder (2560 / 256)%float 3 = [10; 5; 2.5]%float.
Proof. vm_compute. reflexivity. Qed.

(** C5, as the program behaves. An extent that is given is never read:
    [newExtent] stays [undefined] and [getWidth] raises a [TypeError], so
    for a width of 2560 and zoom bounds 0 and 3 no ladder comes back. Zoom
    bounds that are given are not read either: without an extent argument
    they leave the level count [NaN] and the ladder empty. They all hold
    whatever the number of loop iterations followed. *)
Theorem generateResolutions_ignores_arguments (fuel : nat)
  (projection : Projection) :
  (∀ x extent minZoom maxZoom,
     generateResolutions fuel projection (Some (x :: extent)) minZoom maxZoom
     = TypeError)
  ∧ generateResolutions fuel projection (Some [0; 0; 2560; 2560]%float)
      (Some 0%float) (Some 3%float)
    = TypeError
  ∧ (∀ e minZoom maxZoom,
       getExtent projection = Some e →
       generateResolutions fuel projection None (Some minZoom) (Some maxZoom)
       = Ok (Some [])).
Proof.
  split; [|split].
  - reflexivity.
  - reflexivity.
  - intros e minZoom maxZoom He. unfold generateResolutions.
    cbn [isNullOrEmptyArray isNullOrEmpty]. rewrite He.
    cbn [getWidth deref bind]. do 2 f_equal.
    destruct fuel; reflexivity.
Qed.

(** ** The decoder of tiled render features *)

(** C4, as the program behaves. When the tile projection is absent the
    geometry is decoded from the buffer as it is, and [transform] is not
    called, whatever the map projection. When the tile projection is given
    and has both extents, the render feature is cloned, [transform] is
    called on the clone and the geometry is decoded from the result, even
    if the map projection is absent: the first test never reads it. *)
Theorem olRenderFeature2olFeature_map_projection_unread
  (getGeometries : RenderFeature → list NewGeometry)
  (getFlatInteriorPoint : RenderFeature → list float)
  (transformFlat : Projection → option Projection → list float → list float)
  (generateRandom : string → string)
  (f : RenderFeature) :
  let decode := olRenderFeature2olFeature getGeometries getFlatInteriorPoint
                  transformFlat generateRandom in
  let geometryFrom :=
    getGeometryFromRenderFeature getGeometries getFlatInteriorPoint in
  let feature g :=
    {| olf_id := if negb (isNullOrEmpty (id_ f)) then id_ f
                 else Some (generateRandom "mapea_feature_");
       olf_properties := properties_ f;
       olf_geometry := g |} in
  (∀ mapProjection,
     decode (Some f) None mapProjection
     = Ok (Some (feature (geometryFrom f)), []))
  ∧ (∀ tile mapProjection,
       isNullOrEmptyArray (getExtent tile) = false →
       isNullOrEmptyArray (getWorldExtent tile) = false →
       decode (Some f) (Some tile) mapProjection
       = Ok (Some (feature
                     (geometryFrom
                        (transform transformFlat (cloneOLRenderFeature f)
                           tile mapProjection))),
             [{| call_on := cloneOLRenderFeature f;
                 call_source := tile;
                 call_destination := mapProjection |}])).
Proof.
  cbv zeta. split.
  - reflexivity.
  - intros tile mapProjection He Hw. unfold olRenderFeature2olFeature.
    cbn [isNullOrEmpty andb deref bind]. rewrite He, Hw. reflexivity.
Qed.

Example olRenderFeature2olFeature_without_map_projection :
  olRenderFeature2olFeature (λ _, []) (λ _, []) scaleDown (λ p, p)
    (Some renderPoint) (Some tileProjection4096) None
  = Ok (Some {| olf_id := Some "a"; olf_properties := [];
                olf_geometry := Some (NewPoint [5; 2.5]%float) |},
        [{| call_on := renderPoint; call_source := tileProjection4096;
            call_destination := None |}]).
Proof. vm_compute. reflexivity. Qed.

(** ** The CRS registry *)

Lemma addEquivalentProjections_lookup (d : CRSDefinition)
  (cs : list string) (c : gmap string Projection) (code : string) :
  addEquivalentProjections ((λ code, OLProjection code d) <$> cs) c !! code
  = if bool_decide (code ∈ cs) then Some (OLProjection code d)
    else c !! code.
Proof.
  unfold addEquivalentProjections. revert c.
  induction cs as [|k cs IH] using rev_ind; intros c; [reflexivity|].
  rewrite fmap_app, foldl_app. cbn [fmap list_fmap foldl].
  unfold addProjection at 1, add. cbn [code_ OLProjection].
  destruct (decide (k = code)) as [->|Hne].
  - rewrite lookup_insert_eq, bool_decide_eq_true_2; [reflexivity|].
    apply elem_of_app. right. apply list_elem_of_singleton. reflexivity.
  - rewrite lookup_insert_ne by exact Hne. rewrite IH.
    rewrite (bool_decide_ext (code ∈ cs ++ [k]) (code ∈ cs)); [reflexivity|].
    rewrite elem_of_app, list_elem_of_singleton. intuition congruence.
Qed.

Lemma resolve_addProjection1 (r : Registry) (d : CRSDefinition)
  (code : string) :
  resolve (addProjection1 r d) code
  = if bool_decide (code ∈ codes d) then Some (OLProjection code d)
    else resolve r code.
Proof. apply addEquivalentProjections_lookup. Qed.

(** After registration a code answers with the metadata of the last
    definition that lists it; other codes answer as before. *)
Lemma resolve_addProjections (ds : list CRSDefinition) (r : Registry)
  (code : string) :
  resolve (addProjections ds r) code
  = match owner ds code with
    | Some d => Some (OLProjection code d)
    | None => resolve r code
    end.
Proof.
  unfold addProjections, owner.
  induction ds as [|d ds IH] using rev_ind; [reflexivity|].
  rewrite !foldl_app. cbn [foldl]. rewrite resolve_addProjection1, IH.
  destruct (bool_decide (code ∈ codes d)); reflexivity.
Qed.

Lemma extent_25830_23030 : extent proj25830 ≠ extent proj23030.
Proof.
  intros H. apply (f_equal (λ e, (idx e 0 <? 0 - 700000)%float)) in H.
  vm_compute in H. discriminate H.
Qed.

(** C2, as the program behaves. [proj25830] is in the catalogue and lists
    the codes ["EPSG:25830"] and [gml23030] together. Whatever the cache
    held before, after registration the first answers with the extent of
    [proj25830] and the second with the extent of [proj23030], which
    differ: [proj23030] lists [gml23030] too and is registered later. *)
Theorem resolve_25830_aliases_disagree (r0 : Registry) :
  proj25830 ∈ projections
  ∧ "EPSG:25830" ∈ codes proj25830
  ∧ gml23030 ∈ codes proj25830
  ∧ extent_ <$> resolve (registered r0) "EPSG:25830"
    = Some (Some (extent proj25830))
  ∧ extent_ <$> resolve (registered r0) gml23030
    = Some (Some (extent proj23030))
  ∧ extent proj25830 ≠ extent proj23030.
Proof.
  unfold registered. rewrite !fmap_Some. setoid_rewrite resolve_addProjections.
  assert (Ho1 : owner projections "EPSG:25830" = Some proj25830)
    by (vm_compute; reflexivity).
  assert (Ho2 : owner projections gml23030 = Some proj23030)
    by (vm_compute; reflexivity).
  rewrite Ho1, Ho2.
  repeat split.
  - apply list_elem_of_lookup. by exists 9.
  - apply list_elem_of_lookup. by exists 0.
  - apply list_elem_of_lookup. by exists 2.
  - eexists. split; reflexivity.
  - eexists. split; reflexivity.
  - apply extent_25830_23030.
Qed.

(** Every other definition of the catalogue answers for all of its codes:
    its aliases resolve to the same extent, unit and meters per unit. *)
Lemma resolve_aliases_agree (r0 : Registry) (i : nat) (d : CRSDefinition)
  (a : string) :
  projections !! i = Some d → i ≠ 9 → a ∈ codes d →
  resolve (registered r0) a = Some (OLProjection a d).
Proof.
  intros Hd Hi Ha. unfold registered. rewrite resolve_addProjections.
  assert (Ho : owner projections a = Some d); [|by rewrite Ho].
  do 20 (destruct i as [|i];
         [first [done | injection Hd as <-; revert a Ha; apply Forall_forall;
                        repeat constructor] |]).
  discriminate Hd.
Qed.

(** ** The GeoJSON reprojector *)

Lemma getXY_take (coordinatesSet : list jsval) :
  getXY coordinatesSet = take 2 coordinatesSet.
Proof.
  unfold getXY.
  assert (Hcopy : ∀ acc, foldl (λ c x, c ++ [x]) acc coordinatesSet
                         = acc ++ coordinatesSet).
  { induction coordinatesSet as [|x l IH]; intros acc; cbn [foldl].
    - by rewrite app_nil_r.
    - by rewrite IH, <- app_assoc. }
  rewrite Hcopy. cbn [app].
  assert (Hpop : ∀ n (l : list jsval),
            Nat.iter n pop l = take (length l - n) l).
  { induction n as [|n IH]; intros l.
    - cbn [Nat.iter nat_rect]. by rewrite Nat.sub_0_r, firstn_all.
    - rewrite Nat.iter_succ, IH. unfold pop.
      rewrite length_take, take_take. f_equal.
      rewrite (Nat.min_l (length l - n)) by lia.
      rewrite Nat.min_l by lia. lia. }
  rewrite Hpop.
  destruct (decide (2 ≤ length coordinatesSet)).
  - f_equal. lia.
  - rewrite !take_ge by lia. reflexivity.
Qed.

Lemma getTransformedCoordinates_writes
  (getTransform : string → string → list jsval → list jsval)
  (code : string) (l : loc) (a : list jsval) (h : gmap loc (list jsval)) :
  h !! l = Some a →
  getTransformedCoordinates getTransform code l h
  = Some (l, <[l := overwritten (getTransform code "EPSG:4326" (getXY a)) a]> h).
Proof.
  intros Hl. unfold getTransformedCoordinates, getFullCoordinates, bindS,
    read, write, ret.
  repeat (first [rewrite Hl | rewrite lookup_insert_eq]; cbv beta iota).
  rewrite insert_insert_eq. reflexivity.
Qed.

(** C3, as the program behaves. For a Point feature whose coordinate tuple
    is the array at [l], [geojsonTo4326] answers a feature whose coordinates
    are that same array, and the array now holds the transformed [x] and
    [y]: the input is written to. *)
Theorem geojsonTo4326_overwrites_input
  (getTransform : string → string → list jsval → list jsval)
  (code : string) (feature : GeoJSONFeature) (l : loc) (a : list jsval)
  (h : gmap loc (list jsval)) :
  geometry feature = GeoJSONPoint l →
  h !! l = Some a →
  geojsonTo4326 getTransform [feature] code h
  = Some ([createGeoJSONFeature feature (GeoJSONPoint l)],
          <[l := overwritten (getTransform code "EPSG:4326" (getXY a)) a]> h).
Proof.
  intros Hg Hl. unfold geojsonTo4326. cbn [forM]. unfold bindS at 1 2.
  rewrite Hg. cbn [newGeometry]. unfold bindS at 1.
  rewrite (getTransformedCoordinates_writes _ _ _ _ _ Hl). reflexivity.
Qed.

Lemma geojsonTo4326_overwrites_input_witness :
  ∃ h', geojsonTo4326 halve [pointFeature] "EPSG:25830" pointStore
        = Some ([pointFeature], h')
        ∧ pointStore !! 0 = Some [Num 500000; Num 4000000; Num 30]
        ∧ h' !! 0 = Some [Num 250000; Num 2000000; Num 30].
Proof.
  eexists. split; [|split].
  - apply (geojsonTo4326_overwrites_input halve "EPSG:25830" pointFeature 0
             [Num 500000; Num 4000000; Num 30]); reflexivity.
  - reflexivity.
  - rewrite lookup_insert_eq. vm_compute. reflexivity.
Defined.

(** * Further properties of the code *)

(** ** The CRS registry: which definition answers for a code *)

Lemma owner_snoc (ds : list CRSDefinition) (d : CRSDefinition)
  (code : string) :
  owner (ds ++ [d]) code
  = if bool_decide (code ∈ codes d) then Some d else owner ds code.
Proof. unfold owner. rewrite foldl_app. reflexivity. Qed.

Lemma owner_cons_unlisted (d : CRSDefinition) (ds : list CRSDefinition)
  (code : string) (o : option CRSDefinition) :
  Forall (λ d', code ∉ codes d') ds →
  foldl (λ o d, if bool_decide (code ∈ codes d) then Some d else o) o ds = o.
Proof.
  intros H. revert o. induction H as [|d' ds Hd _ IH]; intros o; [reflexivity|].
  cbn [foldl]. rewrite bool_decide_eq_false_2 by exact Hd. apply IH.
Qed.

Lemma owner_last (ds1 ds2 : list CRSDefinition) (d : CRSDefinition)
  (code : string) :
  code ∈ codes d → Forall (λ d', code ∉ codes d') ds2 →
  owner (ds1 ++ d :: ds2) code = Some d.
Proof.
  intros Hd H2. unfold owner. rewrite foldl_app. cbn [foldl].
  rewrite bool_decide_eq_true_2 by exact Hd.
  by apply (owner_cons_unlisted d).
Qed.

Lemma owner_Some (ds : list CRSDefinition) (code : string)
  (d : CRSDefinition) :
  owner ds code = Some d → d ∈ ds ∧ code ∈ codes d.
Proof.
  induction ds as [|d' ds IH] using rev_ind; [discriminate|].
  rewrite owner_snoc. case_bool_decide as Hc.
  - intros [= <-]. split; [|exact Hc]. apply elem_of_app. right.
    by apply list_elem_of_singleton.
  - intros H. destruct (IH H) as [Hin Hcode]. split; [|exact Hcode].
    apply elem_of_app. by left.
Qed.

Lemma owner_listed (ds : list CRSDefinition) (code : string)
  (d : CRSDefinition) :
  d ∈ ds → code ∈ codes d → ∃ d', owner ds code = Some d'.
Proof.
  induction ds as [|d' ds IH] using rev_ind; intros Hin Hcode.
  - by apply elem_of_nil in Hin.
  - rewrite owner_snoc. case_bool_decide as Hc; [by eexists|].
    apply elem_of_app in Hin as [Hin|Hin]; [by apply IH|].
    apply list_elem_of_singleton in Hin as ->. done.
Qed.

(** The definition strings handed to [proj4.defs] follow the same rule as
    the cache: the last definition that lists a code has the say. *)
Lemma proj4_defs_addProjections (ds : list CRSDefinition) (r : Registry)
  (code : string) :
  proj4_defs (addProjections ds r) !! code
  = match owner ds code with
    | Some d => Some (def d)
    | None => proj4_defs r !! code
    end.
Proof.
  unfold addProjections.
  induction ds as [|d ds IH] using rev_ind; [reflexivity|].
  rewrite owner_snoc, foldl_app. cbn [foldl].
  unfold addProjection1 at 1. cbn [proj4_defs].
  generalize (proj4_defs (foldl addProjection1 r ds)) IH. clear IH.
  intros m IH.
  assert (Hcodes : ∀ cs (m0 : gmap string string),
    foldl (λ d0 c, <[c := def d]> d0) m0 cs !! code
    = if bool_decide (code ∈ cs) then Some (def d) else m0 !! code).
  { induction cs as [|k cs IHc] using rev_ind; intros m0; [reflexivity|].
    rewrite foldl_app. cbn [foldl].
    destruct (decide (k = code)) as [->|Hne].
    - rewrite lookup_insert_eq, bool_decide_eq_true_2; [reflexivity|].
      apply elem_of_app. right. by apply list_elem_of_singleton.
    - rewrite lookup_insert_ne by exact Hne. rewrite IHc.
      rewrite (bool_decide_ext (code ∈ cs ++ [k]) (code ∈ cs));
        [reflexivity|].
      rewrite elem_of_app, list_elem_of_singleton. intuition congruence. }
  rewrite Hcodes, IH. destruct (bool_decide (code ∈ codes d)); reflexivity.
Qed.

(** Whatever is registered before or after, a code answers with the
    metadata of the last definition that lists it, built for that very
    code. *)
Theorem resolve_last_definition_wins (ds1 ds2 : list CRSDefinition)
  (d : CRSDefinition) (r : Registry) (code : string) :
  code ∈ codes d →
  Forall (λ d', code ∉ codes d') ds2 →
  resolve (addProjections (ds1 ++ d :: ds2) r) code
  = Some (OLProjection code d)
  ∧ proj4_defs (addProjections (ds1 ++ d :: ds2) r) !! code = Some (def d).
Proof.
  intros Hd H2.
  rewrite resolve_addProjections, proj4_defs_addProjections.
  rewrite (owner_last ds1 ds2 d code Hd H2). split; reflexivity.
Qed.

Lemma resolve_last_definition_wins_witness :
  resolve (addProjections [proj25830; proj23030; proj4326] empty_registry)
    gml23030
  = Some (OLProjection gml23030 proj23030).
Proof.
  apply (resolve_last_definition_wins [proj25830] [proj4326] proj23030
           empty_registry gml23030).
  - apply list_elem_of_lookup. by exists 2.
  - repeat constructor; apply (bool_decide_unpack _); vm_compute; exact I.
Defined.

(** Registration leaves alone every code that no definition lists: it
    answers as it did before, in the cache and for [proj4]. *)
Theorem resolve_unlisted_code (ds : list CRSDefinition) (r : Registry)
  (code : string) :
  Forall (λ d, code ∉ codes d) ds →
  resolve (addProjections ds r) code = resolve r code
  ∧ proj4_defs (addProjections ds r) !! code = proj4_defs r !! code.
Proof.
  intros H. rewrite resolve_addProjections, proj4_defs_addProjections.
  unfold owner. rewrite (owner_cons_unlisted proj4326 ds code None H).
  split; reflexivity.
Qed.

Lemma resolve_unlisted_code_witness :
  resolve (registered empty_registry) "EPSG:3857" = None.
Proof.
  apply (resolve_unlisted_code projections empty_registry "EPSG:3857").
  repeat constructor; apply (bool_decide_unpack _); vm_compute; exact I.
Defined.

Lemma Registry_eq (r1 r2 : Registry) :
  proj4_defs r1 = proj4_defs r2 → ol_cache r1 = ol_cache r2 → r1 = r2.
Proof. destruct r1, r2. cbn. by intros -> ->. Qed.

(** Registering a list of definitions a second time changes nothing: the
    registry is the one the first registration left. *)
Theorem addProjections_twice (ds : list CRSDefinition) (r : Registry) :
  addProjections ds (addProjections ds r) = addProjections ds r.
Proof.
  apply Registry_eq; apply map_eq; intros code.
  - rewrite !proj4_defs_addProjections. by destruct (owner ds code).
  - pose proof (resolve_addProjections ds (addProjections ds r) code) as H1.
    pose proof (resolve_addProjections ds r code) as H2.
    unfold resolve, getProj in H1, H2. rewrite H1, H2.
    by destruct (owner ds code).
Qed.

(** ** The CRS registry: the catalogue as registered *)

Lemma projections_usable : Forall usable projections.
Proof.
  unfold projections.
  repeat (apply Forall_cons; split;
          [split; [intros code; vm_compute; auto
                  | do 4 eexists; split; [reflexivity|];
                    split; vm_compute; reflexivity] |]).
  apply Forall_nil. exact I.
Qed.

(** Every code that a definition of the catalogue lists resolves after
    registration, whatever the registry held before: to a projection that
    carries that code, whose validity extent has four ordinates with
    [minX < maxX] and [minY < maxY], and whose meters per unit are 1 or
    111319.49079327358, so that [getUnitsPerMeter] divides by a usable
    number. *)
Theorem catalogue_codes_resolve (r0 : Registry) (d : CRSDefinition)
  (code : string) :
  d ∈ projections → code ∈ codes d →
  ∃ p, resolve (registered r0) code = Some p
       ∧ code_ p = code
       ∧ (getMetersPerUnit p = 1%float
          ∨ getMetersPerUnit p = 111319.49079327358%float)
       ∧ (∃ minX minY maxX maxY,
            getExtent p = Some [minX; minY; maxX; maxY]
            ∧ (minX <? maxX)%float = true ∧ (minY <? maxY)%float = true)
       ∧ ∀ meter,
           getUnitsPerMeter (ol_cache (registered r0)) code meter
           = Ok (meter / getMetersPerUnit p)%float.
Proof.
  intros Hd Hcode.
  destruct (owner_listed projections code d Hd Hcode) as [d' Ho].
  destruct (owner_Some _ _ _ Ho) as [Hd' _].
  pose proof (proj1 (Forall_forall _ _) projections_usable d' Hd')
    as [Hmpu (minX & minY & maxX & maxY & He & Hx & Hy)].
  assert (Hres : resolve (registered r0) code = Some (OLProjection code d'))
    by (unfold registered; rewrite resolve_addProjections, Ho; reflexivity).
  exists (OLProjection code d'). repeat split.
  - exact Hres.
  - apply Hmpu.
  - exists minX, minY, maxX, maxY. cbn [getExtent extent_ OLProjection].
    rewrite He. auto.
  - intros meter. unfold getUnitsPerMeter.
    unfold resolve in Hres. rewrite Hres. reflexivity.
Qed.

Lemma catalogue_codes_resolve_witness :
  ∃ p, resolve (registered empty_registry) "urn:ogc:def:crs:OGC:1.3:CRS84"
       = Some p
       ∧ getMetersPerUnit p = 111319.49079327358%float.
Proof.
  destruct (catalogue_codes_resolve empty_registry proj4326
              "urn:ogc:def:crs:OGC:1.3:CRS84")
    as (p & Hp & _ & _ & _ & _).
  - apply list_elem_of_lookup. by exists 0.
  - apply list_elem_of_lookup. by exists 2.
  - exists p. split; [exact Hp|].
    vm_compute in Hp. injection Hp as <-. vm_compute. reflexivity.
Defined.

Lemma resolve_aliases_agree_witness :
  resolve (registered empty_registry) "urn:ogc:def:crs:EPSG::4258"
  = Some (OLProjection "urn:ogc:def:crs:EPSG::4258" proj4258).
Proof.
  apply (resolve_aliases_agree empty_registry 6 proj4258).
  - reflexivity.
  - lia.
  - apply list_elem_of_lookup. by exists 1.
Defined.

(** ** [transformExtent]: when the numeric transform is consulted *)

Lemma every_from_false {A} (t : A → nat → bool) (a : list A) (i j : nat)
  (x : A) :
  a !! j = Some x → t x (i + j) = false →
  every_from (λ y k, Ok (t y k)) i a = Ok false.
Proof.
  revert i j. induction a as [|y a IH]; intros i j Hj Ht; [done|].
  cbn [every_from bind]. destruct (t y i) eqn:Hy.
  - destruct j as [|j].
    + injection Hj as ->. rewrite Nat.add_0_r in Ht. congruence.
    + apply (IH (S i) j); [exact Hj|].
      by replace (S i + j) with (i + S j) by lia.
  - reflexivity.
Qed.

Lemma leb_nan_r (x y : float) :
  Prim2SF y = S754_nan → (x <=? y)%float = false.
Proof.
  intros Hy. rewrite FloatAxioms.leb_spec, Hy. unfold SFleb.
  by destruct (Prim2SF x) as [ [|] | [|] | | [|] m e].
Qed.

Lemma leb_nan_l (x y : float) :
  Prim2SF x = S754_nan → (x <=? y)%float = false.
Proof.
  intros Hx. rewrite FloatAxioms.leb_spec, Hx. reflexivity.
Qed.

(** As soon as one ordinate of the extent fails its comparison with the
    source extent, [transformExtent] answers exactly what the numeric
    transform of [ol/proj] answers for the extent, the source projection and
    the target as resolved. *)
Theorem transformExtent_delegates
  (olTransformExtent : list float → Projection → option Projection →
                       result (option (list float)))
  (c : gmap string Projection) (extent : list float)
  (srcProj tgtProj : ProjectionLike) (src : Projection)
  (srcExtent : list float) (i : nat) (coord : float) :
  resolveProj c srcProj = Some src →
  getExtent src = Some srcExtent →
  extent !! i = Some coord →
  (if decide (i < 2) then (coord <=? idx srcExtent i)%float
   else (idx srcExtent i <=? coord)%float) = false →
  transformExtent olTransformExtent c extent srcProj tgtProj
  = olTransformExtent extent src (resolveProj c tgtProj).
Proof.
  intros Hsrc Hext Hi Hfail. unfold transformExtent, every.
  rewrite Hsrc. cbn [deref bind]. rewrite Hext. cbn [deref bind].
  pose proof (every_from_false
             (λ y k, if decide (k < 2) then (y <=? idx srcExtent k)%float
                     else (idx srcExtent k <=? y)%float)
             extent 0 i coord Hi) as HF.
  cbn beta in HF. change (0 + i) with i in HF. rewrite (HF Hfail).
  reflexivity.
Qed.

Lemma transformExtent_delegates_witness :
  transformExtent (λ e _ _, Ok (Some e)) catalogue
    [0; 4000000; 500000; 4500000]%float (inl "EPSG:25830") (inl "EPSG:4326")
  = Ok (Some [0; 4000000; 500000; 4500000]%float).
Proof.
  rewrite (transformExtent_delegates (λ e _ _, Ok (Some e)) catalogue
             [0; 4000000; 500000; 4500000]%float
             (inl "EPSG:25830") (inl "EPSG:4326")
             (OLProjection "EPSG:25830" proj25830) (extent proj25830)
             0 0%float); vm_compute; reflexivity.
Defined.

(** An ordinate that is [NaN], or one at an index the source extent does
    not have, fails its comparison: such an extent always goes to the
    numeric transform. *)
Theorem transformExtent_nan_or_long
  (olTransformExtent : list float → Projection → option Projection →
                       result (option (list float)))
  (c : gmap string Projection) (extent : list float)
  (srcProj tgtProj : ProjectionLike) (src : Projection)
  (srcExtent : list float) (i : nat) (coord : float) :
  resolveProj c srcProj = Some src →
  getExtent src = Some srcExtent →
  extent !! i = Some coord →
  Prim2SF coord = S754_nan ∨ length srcExtent ≤ i →
  transformExtent olTransformExtent c extent srcProj tgtProj
  = olTransformExtent extent src (resolveProj c tgtProj).
Proof.
  intros Hsrc Hext Hi Hbad.
  unfold transformExtent, every.
  rewrite Hsrc. cbn [deref bind]. rewrite Hext. cbn [deref bind].
  pose proof (every_from_false
             (λ y k, if decide (k < 2) then (y <=? idx srcExtent k)%float
                     else (idx srcExtent k <=? y)%float)
             extent 0 i coord Hi) as HF.
  cbn beta in HF. change (0 + i) with i in HF. rewrite HF; [reflexivity|].
  clear HF. destruct Hbad as [Hnan|Hlong].
  - destruct (decide (i < 2)); [by apply leb_nan_l | by apply leb_nan_r].
  - assert (Hidx : idx srcExtent i = nan)
      by (unfold idx; rewrite lookup_ge_None_2 by exact Hlong; reflexivity).
    rewrite Hidx.
    destruct (decide (i < 2)); [by apply leb_nan_r | by apply leb_nan_l].
Qed.

Lemma transformExtent_nan_or_long_witness :
  transformExtent (λ e _ _, Ok None) catalogue
    [-1000000; 0; 1000000; 10000000; 0]%float
    (inl "EPSG:25830") (inl "EPSG:4326")
  = Ok None.
Proof.
  rewrite (transformExtent_nan_or_long (λ e _ _, Ok None) catalogue
             [-1000000; 0; 1000000; 10000000; 0]%float
             (inl "EPSG:25830") (inl "EPSG:4326")
             (OLProjection "EPSG:25830" proj25830) (extent proj25830)
             4 0%float); try (vm_compute; reflexivity).
  right. vm_compute. lia.
Defined.

(** What [transformExtent] raises. A source code the cache does not hold is
    a [TypeError] for every extent; so is a source projection without
    validity extent, unless the extent is empty; and so is a target code
    the cache does not hold once the comparisons have all succeeded. An
    empty extent passes [every] at once and gets the target extent. *)
Theorem transformExtent_errors
  (olTransformExtent : list float → Projection → option Projection →
                       result (option (list float)))
  (c : gmap string Projection) (tgtProj : ProjectionLike) :
  (∀ extent code,
     getProj c code = None →
     transformExtent olTransformExtent c extent (inl code) tgtProj
     = TypeError)
  ∧ (∀ x extent srcProj src,
       resolveProj c srcProj = Some src → getExtent src = None →
       transformExtent olTransformExtent c (x :: extent) srcProj tgtProj
       = TypeError)
  ∧ (∀ srcProj src,
       resolveProj c srcProj = Some src →
       transformExtent olTransformExtent c [] srcProj tgtProj
       = match resolveProj c tgtProj with
         | Some tgt => Ok (getExtent tgt)
         | None => TypeError
         end).
Proof.
  split; [|split].
  - intros extent code Hc. unfold transformExtent. cbn [resolveProj].
    rewrite Hc. reflexivity.
  - intros x extent srcProj src Hsrc He. unfold transformExtent, every.
    rewrite Hsrc. cbn [deref bind]. rewrite He. reflexivity.
  - intros srcProj src Hsrc. unfold transformExtent, every.
    rewrite Hsrc. cbn [deref bind every_from].
    by destruct (resolveProj c tgtProj).
Qed.

(** ** The centroid engine: the other geometry kinds *)

(** Through its recursive calls [getCentroid] answers, for a MultiPoint,
    the point at index [floor(n / 2)]; for a MultiLineString, the middle
    coordinate of the line at index [floor(n / 2)]; for a Polygon, its
    interior point; for a MultiPolygon, the interior point of the polygon at
    index [floor(n / 2)]. *)
Theorem getCentroid_multi
  (interiorPoint : list (list (list float)) → list float) :
  (∀ points c,
     points !! floor_half (length points) = Some c →
     getCentroid interiorPoint (Geom (MultiPoint points)) = Coordinate c)
  ∧ (∀ lines line,
       lines !! floor_half (length lines) = Some line →
       getCentroid interiorPoint (Geom (MultiLineString lines))
       = coordinateAt line (floor_half (length line)))
  ∧ (∀ rings,
       getCentroid interiorPoint (Geom (Polygon rings))
       = Coordinate (interiorPoint rings))
  ∧ (∀ polygons rings,
       polygons !! floor_half (length polygons) = Some rings →
       getCentroid interiorPoint (Geom (MultiPolygon polygons))
       = Coordinate (interiorPoint rings)).
Proof.
  split; [|split; [|split]].
  - intros points c Hc. simp getCentroid. unfold geometryAt, getPoints.
    rewrite length_fmap, list_lookup_fmap, Hc. cbn [fmap option_fmap option_map].
    try simp getCentroid; reflexivity.
  - intros lines line Hl. simp getCentroid. unfold geometryAt, getLineStrings.
    rewrite length_fmap, list_lookup_fmap, Hl. cbn [fmap option_fmap option_map].
    try simp getCentroid; reflexivity.
  - intros rings. simp getCentroid. unfold getInteriorPoint.
    try simp getCentroid; reflexivity.
  - intros polygons rings Hp. simp getCentroid. unfold getInteriorPoints.
    try simp getCentroid. unfold geometryAt, getPoints.
    rewrite !length_fmap, !list_lookup_fmap, Hp.
    cbn [fmap option_fmap option_map]. try simp getCentroid; reflexivity.
Qed.

(** On a geometry without members the two functions part ways:
    [getCentroid] answers [null] for an empty MultiPoint, MultiLineString
    or MultiPolygon, where [getCentroidCoordinate] raises a [TypeError], as
    it does for an empty GeometryCollection; for a LineString or LinearRing
    without coordinates both answer [undefined]. *)
Theorem centroid_of_empty
  (interiorPoint : list (list (list float)) → list float) :
  let null_and_error g :=
    getCentroid interiorPoint (Geom g) = CentroidNull
    ∧ getCentroidCoordinate interiorPoint (Geom g) = TypeError in
  let both_undefined g :=
    getCentroid interiorPoint (Geom g) = CentroidUndefined
    ∧ getCentroidCoordinate interiorPoint (Geom g) = Ok CentroidUndefined in
  null_and_error (MultiPoint [])
  ∧ null_and_error (MultiLineString [])
  ∧ null_and_error (MultiPolygon [])
  ∧ null_and_error (GeometryCollection [])
  ∧ both_undefined (LineString [])
  ∧ both_undefined (LinearRing []).
Proof.
  cbv zeta. repeat split; reflexivity.
Qed.

Lemma centroid_functions_agree
  (interiorPoint : list (list (list float)) → list float) (g : Geometry) :
  (∀ geometries, g ≠ GeometryCollection geometries) →
  getCentroidCoordinate interiorPoint (Geom g)
  = match getCentroid interiorPoint (Geom g) with
    | CentroidNull => TypeError
    | r => Ok r
    end.
Proof.
  intros Hg.
  assert (Hpoints : ∀ points i,
    getCentroidCoordinate interiorPoint (geometryAt (getPoints points) i)
    = match getCentroid interiorPoint (geometryAt (getPoints points) i) with
      | CentroidNull => TypeError
      | r => Ok r
      end).
  { intros points i. unfold geometryAt, getPoints. rewrite list_lookup_fmap.
    destruct (points !! i); cbn [fmap option_fmap option_map];
      try simp getCentroid getCentroidCoordinate; reflexivity. }
  destruct g as [c|cs|cs|rings|points|lines|polygons|members|c r];
    try simp getCentroid getCentroidCoordinate;
    unfold getInteriorPoint, getInteriorPoints;
    try simp getCentroid getCentroidCoordinate;
    try reflexivity;
    try (unfold coordinateAt; by destruct (_ !! _));
    try apply Hpoints;
    try (by destruct (Hg members)).
  unfold geometryAt, getLineStrings. rewrite list_lookup_fmap.
  destruct (_ !! _) as [line|]; cbn [fmap option_fmap option_map];
    simp getCentroid getCentroidCoordinate; [|reflexivity].
  unfold coordinateAt. by destruct (_ !! _).
Qed.

(** On every geometry other than a GeometryCollection the two functions
    agree: [getCentroidCoordinate] answers what [getCentroid] answers,
    except that it raises a [TypeError] exactly where [getCentroid] answers
    [null]. *)
Theorem getCentroidCoordinate_getCentroid
  (interiorPoint : list (list (list float)) → list float) (g : Geometry) :
  (∀ geometries, g ≠ GeometryCollection geometries) →
  getCentroidCoordinate interiorPoint (Geom g)
  = match getCentroid interiorPoint (Geom g) with
    | CentroidNull => TypeError
    | r => Ok r
    end.
Proof. apply centroid_functions_agree. Qed.

Lemma getCentroidCoordinate_getCentroid_witness :
  getCentroidCoordinate (λ rings, default [] (rings !! 0 ≫= (.!! 0)))
    (Geom (MultiPolygon [[[[0; 0]; [4; 0]; [4; 3]]]; [[[9; 9]; [8; 8]]]]%float))
  = Ok (Coordinate [9; 9]%float).
Proof.
  rewrite getCentroidCoordinate_getCentroid by discriminate.
  reflexivity.
Defined.

(** [getCentroidCoordinate] descends through nested collections: for a
    collection whose member at index [floor(n / 2)] is not itself a
    collection, it answers what [getCentroid] answers on that member (a
    [TypeError] where that is [null]), although [getCentroid] answers [null]
    on the collection. *)
Theorem getCentroidCoordinate_collection_member
  (interiorPoint : list (list (list float)) → list float)
  (geometries : list Geometry) (g : Geometry) :
  geometries !! floor_half (length geometries) = Some g →
  (∀ members, g ≠ GeometryCollection members) →
  getCentroidCoordinate interiorPoint (Geom (GeometryCollection geometries))
  = match getCentroid interiorPoint (Geom g) with
    | CentroidNull => TypeError
    | r => Ok r
    end.
Proof.
  intros Hm Hg. simp getCentroidCoordinate. unfold geometryAt. rewrite Hm.
  by apply centroid_functions_agree.
Qed.

Lemma getCentroidCoordinate_collection_member_witness :
  getCentroidCoordinate (λ _, [])
    (Geom (GeometryCollection
             [Point [1; 2]; LineString [[0; 0]; [5; 5]; [9; 9]]]%float))
  = Ok (Coordinate [5; 5]%float).
Proof.
  rewrite (getCentroidCoordinate_collection_member (λ _, []) _
             (LineString [[0; 0]; [5; 5]; [9; 9]]%float));
    [reflexivity | reflexivity | discriminate].
Defined.

(** ** [getFeaturesExtent]: edges and what it reads *)

Lemma mapR_TypeError {A B} (f : A → result B) (a : list A) (x : A) :
  x ∈ a → f x = TypeError → mapR f a = TypeError.
Proof.
  intros Hin Hx. induction a as [|y a IH]; [by apply elem_of_nil in Hin|].
  cbn [mapR]. apply elem_of_cons in Hin as [<-|Hin].
  - rewrite Hx. reflexivity.
  - destruct (f y); [|reflexivity]. cbn [bind]. rewrite (IH Hin). reflexivity.
Qed.

Lemma mapR_length {A B} (f : A → result B) (a : list A) (b : list B) :
  mapR f a = Ok b → length b = length a.
Proof.
  revert b. induction a as [|x a IH]; intros b; cbn [mapR].
  - by intros [= <-].
  - destruct (f x); [|discriminate]. cbn [bind].
    destruct (mapR f a) as [ys|]; [|discriminate]. cbn [bind].
    intros [= <-]. cbn [length]. by rewrite (IH ys).
Qed.

(** No feature gives [null]; one feature without geometry anywhere in the
    set is a [TypeError]; and a single Point under a projection code that
    the cache does not hold is a [TypeError] too. *)
Theorem getFeaturesExtent_edges
  (geometryExtent : Geometry → list float) (c : gmap string Projection)
  (projectionCode : string) :
  getFeaturesExtent geometryExtent c [] projectionCode = Ok None
  ∧ (∀ features f,
       f ∈ features → olf_geometry (olFeatureOf f) = None →
       getFeaturesExtent geometryExtent c features projectionCode
       = TypeError)
  ∧ (∀ f coordinates,
       olf_geometry (olFeatureOf f) = Some (Point coordinates) →
       getProj c projectionCode = None →
       getFeaturesExtent geometryExtent c [f] projectionCode = TypeError).
Proof.
  split; [reflexivity|]. split.
  - intros features f Hin Hg. unfold getFeaturesExtent.
    rewrite (mapR_TypeError _ (olFeatureOf <$> features) (olFeatureOf f)).
    + reflexivity.
    + by apply list_elem_of_fmap_2.
    + rewrite Hg. reflexivity.
  - intros f coordinates Hg Hc. unfold getFeaturesExtent, getUnitsPerMeter.
    cbn [fmap list_fmap mapR]. rewrite Hg. cbn [deref bind length].
    destruct (decide (1 = 1)) as [_|[]]; [|reflexivity].
    cbn [lookup list_lookup deref bind]. rewrite Hg. cbn [deref bind].
    replace (isPoint (Point coordinates)) with true by reflexivity.
    rewrite Hc. reflexivity.
Qed.

(** The projection is read for a single Point only. For a set that is not
    one lone Point feature, the answer is the same under every cache and
    every projection code, registered or not. *)
Theorem getFeaturesExtent_registry_unread
  (geometryExtent : Geometry → list float)
  (c c' : gmap string Projection) (projectionCode projectionCode' : string)
  (features : list FeatureArg) :
  (∀ f coordinates,
     features = [f] →
     olf_geometry (olFeatureOf f) ≠ Some (Point coordinates)) →
  getFeaturesExtent geometryExtent c features projectionCode
  = getFeaturesExtent geometryExtent c' features projectionCode'.
Proof.
  intros Hnot. unfold getFeaturesExtent.
  destruct (mapR _ (olFeatureOf <$> features)) as [extents|] eqn:Hmap;
    [|reflexivity].
  cbn [bind]. apply mapR_length in Hmap. rewrite length_fmap in Hmap.
  destruct (decide (length extents = 1)) as [H1|]; [|reflexivity].
  destruct features as [|f [|? ?]]; cbn [length] in Hmap; try lia.
  cbn [fmap list_fmap lookup list_lookup deref bind].
  destruct (olf_geometry (olFeatureOf f)) as [g|] eqn:Hg; [|reflexivity].
  cbn [deref bind].
  destruct g; try reflexivity.
  by destruct (Hnot f coordinates eq_refl).
Qed.

Lemma getFeaturesExtent_registry_unread_witness :
  getFeaturesExtent pointExtent ∅
    [featureOf (Point [0; 0]%float); featureOf (Point [5; 7]%float)]
    "EPSG:0000"
  = Ok (Some [0; 0; 5; 7]%float).
Proof.
  rewrite (getFeaturesExtent_registry_unread pointExtent ∅ catalogue
             "EPSG:0000" "EPSG:25830").
  - vm_compute. reflexivity.
  - intros f coordinates H. discriminate H.
Defined.

(** ** The GeoJSON reprojector on every geometry kind *)

Lemma set_lookup_ge (k : nat) (v : jsval) (a : list jsval) (i : nat) :
  k < 2 → 2 ≤ i → set k v a !! i = a !! i.
Proof.
  intros Hk Hi. unfold set. destruct (decide (k < length a)).
  - apply list_lookup_insert_ne. lia.
  - rewrite (lookup_ge_None_2 a) by lia. apply lookup_ge_None_2.
    rewrite !length_app, length_replicate. cbn [length]. lia.
Qed.

Lemma overwritten_lookup_ge (newXY a : list jsval) (i : nat) :
  2 ≤ i → overwritten newXY a !! i = a !! i.
Proof.
  intros Hi. unfold overwritten.
  rewrite set_lookup_ge by lia. apply set_lookup_ge; lia.
Qed.

Lemma keeps_refl (L : list loc) (h : gmap loc (list jsval)) : keeps L h h.
Proof.
  split; [done|]. split; [done|]. intros l a a' i Ha Ha' _. congruence.
Qed.

Lemma keeps_trans (L1 L2 L : list loc) (h1 h2 h3 : gmap loc (list jsval)) :
  (∀ l, l ∈ L1 → l ∈ L) → (∀ l, l ∈ L2 → l ∈ L) →
  keeps L1 h1 h2 → keeps L2 h2 h3 → keeps L h1 h3.
Proof.
  intros H1 H2 (D1 & F1 & A1) (D2 & F2 & A2). split; [|split].
  - intros l. by rewrite D2, D1.
  - intros l Hl. rewrite F2, F1; [done| |]; intros Hin; apply Hl; auto.
  - intros l a a'' i Ha Ha'' Hi.
    destruct (proj2 (D1 l) (mk_is_Some _ _ Ha)) as [a' Ha'].
    rewrite (A2 l a' a'' i Ha' Ha'' Hi). by apply (A1 l a a' i).
Qed.

Lemma allocated_keeps (L L' : list loc) (h h' : gmap loc (list jsval)) :
  keeps L' h h' → allocated L h → allocated L h'.
Proof. intros (D & _) H l Hl. apply D. by apply H. Qed.


Lemma steady_forM {A} (lv : A → list loc) (f : A → St A) :
  steady lv f → steady (λ xs, concat (lv <$> xs)) (forM f).
Proof.
  intros Hf xs. induction xs as [|x xs IH]; intros h Hall.
  - exists h. split; [reflexivity|apply keeps_refl].
  - cbn [fmap list_fmap concat] in Hall.
    destruct (Hf x h) as (h1 & Hx & K1).
    { intros l Hl. apply Hall, elem_of_app. by left. }
    destruct (IH h1) as (h2 & Hxs & K2).
    { apply (allocated_keeps _ _ _ _ K1).
      intros l Hl. apply Hall, elem_of_app. by right. }
    exists h2. split.
    + cbn [forM]. unfold bindS at 1. rewrite Hx.
      unfold bindS at 1. rewrite Hxs. reflexivity.
    + cbn [fmap list_fmap concat].
      apply (keeps_trans (lv x) (concat (lv <$> xs)) _ h h1 h2);
        [| |exact K1|exact K2]; intros l Hl; apply elem_of_app; auto.
Qed.

Lemma steady_ext {A} (lv lv' : A → list loc) (f : A → St A) :
  (∀ x, lv x = lv' x) → steady lv f → steady lv' f.
Proof. intros E H x h. rewrite <- E. apply H. Qed.

Lemma concat_singletons (cs : list loc) : concat ((λ l, [l]) <$> cs) = cs.
Proof. induction cs as [|c cs IH]; [done|]. cbn. by rewrite IH. Qed.

Lemma concat_nested (csss : list (list (list loc))) :
  concat ((λ xs : list (list loc), concat ((λ cs, cs) <$> xs)) <$> csss)
  = concat (concat csss).
Proof.
  induction csss as [|css csss IH]; [done|].
  cbn [fmap list_fmap concat]. rewrite list_fmap_id, concat_app.
  by rewrite <- IH.
Qed.

Lemma steady_newDot
  (getTransform : string → string → list jsval → list jsval)
  (code : string) :
  steady (λ l, [l]) (getTransformedCoordinates getTransform code).
Proof.
  intros l h Hall. destruct (Hall l) as [a Ha]; [by left|].
  eexists. split; [by apply getTransformedCoordinates_writes|].
  split; [|split].
  - intros l'. destruct (decide (l = l')) as [<-|Hne].
    + rewrite lookup_insert_eq, Ha. split; eauto.
    + by rewrite lookup_insert_ne.
  - intros l' Hl'. apply lookup_insert_ne. intros ->. apply Hl'. by left.
  - intros l' b b' i Hb Hb' Hi. destruct (decide (l = l')) as [<-|Hne].
    + rewrite lookup_insert_eq in Hb'. injection Hb' as <-.
      rewrite overwritten_lookup_ge by exact Hi. congruence.
    + rewrite lookup_insert_ne in Hb' by exact Hne. congruence.
Qed.

Lemma steady_newGeometry
  (getTransform : string → string → list jsval → list jsval)
  (code : string) :
  steady leaves (newGeometry getTransform code).
Proof.
  pose proof (steady_newDot getTransform code) as H0.
  pose proof (steady_ext _ (λ cs, cs) _ concat_singletons
                (steady_forM _ _ H0)) as H1.
  pose proof (steady_forM _ _ H1) as H2.
  pose proof (steady_forM _ _ H2) as H3.
  intros g h Hall. destruct g as [c|cs|cs|css|css|csss|t]; cbn [newGeometry].
  - destruct (H0 c h Hall) as (h' & E & K). exists h'. split; [|exact K].
    unfold bindS. rewrite E. reflexivity.
  - destruct (H1 cs h Hall) as (h' & E & K). exists h'. split; [|exact K].
    unfold bindS. rewrite E. reflexivity.
  - destruct (H1 cs h Hall) as (h' & E & K). exists h'. split; [|exact K].
    unfold bindS. rewrite E. reflexivity.
  - destruct (H2 css h) as (h' & E & K).
    { by rewrite list_fmap_id. }
    exists h'. rewrite list_fmap_id in K. split; [|exact K].
    unfold bindS. rewrite E. reflexivity.
  - destruct (H2 css h) as (h' & E & K).
    { by rewrite list_fmap_id. }
    exists h'. rewrite list_fmap_id in K. split; [|exact K].
    unfold bindS. rewrite E. reflexivity.
  - destruct (H3 csss h) as (h' & E & K).
    { by rewrite concat_nested. }
    exists h'. rewrite concat_nested in K. split; [|exact K].
    unfold bindS. rewrite E. reflexivity.
  - exists h. split; [reflexivity|apply keeps_refl].
Qed.

Lemma steady_geojsonTo4326
  (getTransform : string → string → list jsval → list jsval)
  (code : string) :
  steady featureLeaves (λ fs, geojsonTo4326 getTransform fs code).
Proof.
  unfold featureLeaves, geojsonTo4326. apply steady_forM.
  intros f h Hall.
  destruct (steady_newGeometry getTransform code (geometry f) h Hall)
    as (h' & E & K).
  exists h'. split; [|exact K].
  unfold bindS. rewrite E. by destruct f.
Qed.





(** Reprojection keeps the ordinates beyond [x] and [y]: in every array of
    the store, the cells from index 2 on (an altitude, a measure) are
    afterwards what they were, and no cell from index 2 on is added. *)
Theorem geojsonTo4326_keeps_altitude
  (getTransform : string → string → list jsval → list jsval)
  (code : string) (features features' : list GeoJSONFeature)
  (h h' : gmap loc (list jsval)) (l : loc) (a : list jsval) :
  allocated (featureLeaves features) h →
  geojsonTo4326 getTransform features code h = Some (features', h') →
  h !! l = Some a →
  ∃ a', h' !! l = Some a' ∧ ∀ i, 2 ≤ i → a' !! i = a !! i.
Proof.
  intros Hall Hrun Ha.
  destruct (steady_geojsonTo4326 getTransform code features h Hall)
    as (h1 & E & D & _ & A).
  rewrite E in Hrun. injection Hrun as _ <-.
  destruct (proj2 (D l) (mk_is_Some _ _ Ha)) as [a' Ha'].
  exists a'. split; [exact Ha'|]. intros i Hi. by apply (A l a a' i).
Qed.

Lemma geojsonTo4326_keeps_altitude_witness :
  ∃ h' a', geojsonTo4326 halve [lineFeature] "EPSG:25830" lineStore
           = Some ([lineFeature], h')
           ∧ h' !! 3 = Some a'
           ∧ a' !! 2 = Some (Num 300) ∧ a' !! 3 = Some (Num 7).
Proof.
  assert (Hall : allocated (featureLeaves [lineFeature]) lineStore).
  { intros l Hl. vm_compute in Hl.
    repeat (apply elem_of_cons in Hl as [->|Hl]; [by eexists|]).
    by apply elem_of_nil in Hl. }
  destruct (steady_geojsonTo4326 halve "EPSG:25830" [lineFeature] lineStore
              Hall) as (h' & E & _).
  destruct (geojsonTo4326_keeps_altitude halve "EPSG:25830" [lineFeature]
              [lineFeature] lineStore h' 3
              [Num 10; Num 12; Num 300; Num 7] Hall E eq_refl)
    as (a' & Ha' & Hcells).
  exists h', a'. split; [exact E|]. split; [exact Ha'|].
  split; [apply (Hcells 2); lia | apply (Hcells 3); lia].
Defined.

(** *** The identity transform *)










(** [getXY] answers the first two ordinates of a coordinate tuple, or the
    whole tuple when it has fewer: never more than two cells. *)
Theorem getXY_first_two (coordinatesSet : list jsval) :
  getXY coordinatesSet = take 2 coordinatesSet
  ∧ length (getXY coordinatesSet) = 2 `min` length coordinatesSet.
Proof.
  rewrite getXY_take. split; [reflexivity|apply length_take].
Qed.

(** ** The resolution generator: all it can answer *)

Lemma generateResolutions_defaults_witness :
  generateResolutions 20 (OLProjection "EPSG:4326" proj4326) None None None
  = Ok (Some (ladder (360 / 256)%float 20)).
Proof.
  rewrite (generateResolutions_defaults 20 (OLProjection "EPSG:4326" proj4326)
             (extent proj4326)); [|reflexivity|lia].
  vm_compute. reflexivity.
Defined.

(** Whatever the arguments, once twenty iterations of the loop are
    followed [generateResolutions] has one of three outcomes: a
    [TypeError], no resolution at all, or the twenty resolutions
    [(width / 256) / 2^i] over the validity extent of the projection. A
    projection without validity extent always gives the [TypeError]. *)
Theorem generateResolutions_outcomes (fuel : nat) (projection : Projection)
  (extent : option (list float)) (minZoom maxZoom : option float) :
  20 ≤ fuel →
  let r := generateResolutions fuel projection extent minZoom maxZoom in
  (r = TypeError
   ∨ r = Ok (Some [])
   ∨ ∃ e, getExtent projection = Some e
          ∧ r = Ok (Some (ladder ((idx e 2 - idx e 0) / 256)%float 20)))
  ∧ (getExtent projection = None → r = TypeError).
Proof.
  intros Hfuel r. subst r. unfold generateResolutions.
  destruct extent as [[|x extent]|]; cbn [isNullOrEmptyArray];
    try (split; [left|intros _]; reflexivity);
    (destruct (getExtent projection) as [e|] eqn:He;
       [|split; [left|intros _]; reflexivity]);
    cbn [getWidth deref bind]; (split; [|discriminate]);
    (destruct minZoom as [mn|], maxZoom as [mx|]; cbn [isNullOrEmpty];
       [right; left; destruct fuel; reflexivity
       |right; left; destruct fuel; reflexivity
       |right; left; destruct fuel; reflexivity
       |]);
    right; right; exists e; (split; [reflexivity|]);
    do 2 f_equal; replace fuel with (20 + (fuel - 20)) by lia;
    generalize (fuel - 20) as k; intros k;
    generalize ((idx e 2 - idx e 0) / 256)%float as size; intros size;
    cbn -[PrimFloat.div pow2]; destruct k; reflexivity.
Qed.

Lemma generateResolutions_outcomes_witness :
  generateResolutions 25 (OLProjection "EPSG:4326" proj4326) None
    (Some 5%float) None
  = Ok (Some []).
Proof.
  destruct (generateResolutions_outcomes 25
              (OLProjection "EPSG:4326" proj4326) None (Some 5%float) None)
    as [_ _]; [lia|].
  vm_compute. reflexivity.
Defined.

(** ** The decoder of tiled render features: what always holds *)


(** A tile projection that lacks a validity extent or a world extent
    costs the geometry: the feature comes back without one, and neither the
    buffer is decoded nor [transform] called. *)
Theorem olRenderFeature2olFeature_tile_without_extent
  (getGeometries : RenderFeature → list NewGeometry)
  (getFlatInteriorPoint : RenderFeature → list float)
  (transformFlat : Projection → option Projection → list float → list float)
  (generateRandom : string → string)
  (rf : RenderFeature) (tile : Projection)
  (mapProjection : option Projection) :
  isNullOrEmptyArray (getExtent tile) = true
  ∨ isNullOrEmptyArray (getWorldExtent tile) = true →
  olRenderFeature2olFeature getGeometries getFlatInteriorPoint
    transformFlat generateRandom (Some rf) (Some tile) mapProjection
  = Ok (Some {| olf_id := Some (default (generateRandom "mapea_feature_")
                                  (id_ rf));
                olf_properties := properties_ rf;
                olf_geometry := None |}, []).
Proof.
  intros H. unfold olRenderFeature2olFeature.
  cbn [isNullOrEmpty andb deref bind].
  assert (negb (isNullOrEmptyArray (getExtent tile))
          && negb (isNullOrEmptyArray (getWorldExtent tile)) = false) as ->.
  { destruct H as [-> | ->]; [reflexivity|apply andb_false_r]. }
  cbn [fst snd]. by destruct (id_ rf).
Qed.

Lemma olRenderFeature2olFeature_tile_without_extent_witness :
  olRenderFeature2olFeature (λ _, []) (λ _, []) scaleDown (λ p, p)
    (Some renderPoint) (Some (OLProjection "EPSG:25830" proj25830))
    (Some (OLProjection "EPSG:4326" proj4326))
  = Ok (Some {| olf_id := Some "a"; olf_properties := [];
                olf_geometry := None |}, []).
Proof.
  apply (olRenderFeature2olFeature_tile_without_extent (λ _, []) (λ _, [])
           scaleDown (λ p, p) renderPoint).
  right. reflexivity.
Defined.


(** ** The order of numbers, and the merged extent *)

Lemma SFcompare_key (a b : spec_float) :
  a ≠ S754_nan → b ≠ S754_nan →
  SFcompare a b = Some (key_compare (SFkey a) (SFkey b)).
Proof.
  intros Ha Hb.
  destruct a as [ [|] | [|] | | [|] m1 e1], b as [ [|] | [|] | | [|] m2 e2];
    try done; cbn [SFcompare SFkey]; unfold key_compare; cbn [fst snd];
    try reflexivity.
  rewrite Z.compare_opp, (Z.compare_antisym e1 e2).
  change (CompOpp (1 ?= 1)%positive) with Eq. cbn iota.
  destruct (e1 ?= e2)%Z; reflexivity.
Qed.

Lemma key_compare_trans (a b c : Z * Z * Z) :
  key_compare a b ≠ Gt → key_compare b c ≠ Gt → key_compare a c ≠ Gt.
Proof.
  destruct a as [[a1 a2] a3], b as [[b1 b2] b3], c as [[c1 c2] c3].
  unfold key_compare. cbn [fst snd].
  destruct (Z.compare_spec a1 b1), (Z.compare_spec b1 c1),
    (Z.compare_spec a1 c1); try lia; try done;
    destruct (Z.compare_spec a2 b2), (Z.compare_spec b2 c2),
      (Z.compare_spec a2 c2); try lia; try done;
    destruct (Z.compare_spec a3 b3), (Z.compare_spec b3 c3),
      (Z.compare_spec a3 c3); try lia; done.
Qed.

Lemma number_not_nan (x : float) : number x → Prim2SF x ≠ S754_nan.
Proof.
  unfold number. rewrite FloatAxioms.eqb_spec. intros H E.
  rewrite E in H. discriminate H.
Qed.

Lemma leb_key (x y : float) :
  number x → number y →
  (x <=? y)%float = true
  ↔ key_compare (SFkey (Prim2SF x)) (SFkey (Prim2SF y)) ≠ Gt.
Proof.
  intros Hx Hy. rewrite FloatAxioms.leb_spec. unfold SFleb.
  rewrite SFcompare_key by by apply number_not_nan.
  destruct (key_compare _ _); split; done.
Qed.

Lemma leb_trans (x y z : float) :
  number x → number y → number z →
  (x <=? y)%float = true → (y <=? z)%float = true → (x <=? z)%float = true.
Proof.
  intros Hx Hy Hz. rewrite !leb_key by assumption. apply key_compare_trans.
Qed.

Lemma leb_refl (x : float) : number x → (x <=? x)%float = true.
Proof. apply eqb_leb. Qed.

Lemma not_ltb_leb (x y : float) :
  number x → number y → (x <? y)%float = false → (y <=? x)%float = true.
Proof.
  intros Hx Hy Hlt. destruct (y <=? x)%float eqn:Hle; [reflexivity|].
  destruct (unordered_nan x y Hlt Hle) as [H|H];
    by apply number_not_nan in H.
Qed.

Lemma extend_covers (a b : list float) :
  properExtent a → properExtent b →
  properExtent (extend a b) ∧ covers (extend a b) a ∧ covers (extend a b) b.
Proof.
  intros (a0 & a1 & a2 & a3 & -> & Na0 & Na1 & Na2 & Na3)
         (b0 & b1 & b2 & b3 & -> & Nb0 & Nb1 & Nb2 & Nb3).
  rewrite extend_min_max. unfold covers, idx.
  cbn [lookup list_lookup default from_option id].
  destruct (b0 <? a0)%float eqn:H0, (b1 <? a1)%float eqn:H1,
    (a2 <? b2)%float eqn:H2, (a3 <? b3)%float eqn:H3;
    (split; [by do 4 eexists|]);
    repeat split;
    first [ by apply leb_refl | by apply ltb_leb | by apply not_ltb_leb ].
Qed.

Lemma covers_trans (r' r e : list float) :
  properExtent r' → properExtent r → properExtent e →
  covers r' r → covers r e → covers r' e.
Proof.
  intros (x0 & x1 & x2 & x3 & -> & ? & ? & ? & ?)
         (y0 & y1 & y2 & y3 & -> & ? & ? & ? & ?)
         (z0 & z1 & z2 & z3 & -> & ? & ? & ? & ?).
  unfold covers, idx. cbn [lookup list_lookup default from_option id].
  intros (A0 & A1 & A2 & A3) (B0 & B1 & B2 & B3).
  split; [by apply (leb_trans x0 y0 z0)|].
  split; [by apply (leb_trans x1 y1 z1)|].
  split; [by apply (leb_trans z2 y2 x2)|by apply (leb_trans z3 y3 x3)].
Qed.

Lemma foldl_extend_covers (es : list (list float)) (e1 : list float) :
  properExtent e1 → Forall properExtent es →
  properExtent (foldl extend e1 es)
  ∧ covers (foldl extend e1 es) e1
  ∧ Forall (covers (foldl extend e1 es)) es.
Proof.
  intros H1 Hes. revert e1 H1.
  induction Hes as [|e es He _ IH]; intros e1 H1; cbn [foldl].
  - split; [exact H1|]. split; [|constructor].
    destruct H1 as (x0 & x1 & x2 & x3 & -> & ? & ? & ? & ?).
    unfold covers, idx. cbn [lookup list_lookup default from_option id].
    repeat split; by apply leb_refl.
  - destruct (extend_covers e1 e H1 He) as (Hp & C1 & Ce).
    destruct (IH (extend e1 e) Hp) as (HpR & CR & CF).
    split; [exact HpR|]. split; [|constructor; [|exact CF]].
    + by apply (covers_trans _ (extend e1 e)).
    + by apply (covers_trans _ (extend e1 e)).
Qed.

(** For two or more features whose geometries have extents of four
    numbers, the extent [getFeaturesExtent] answers is again an extent of
    four numbers and covers the extent of every feature: none of its lower
    ordinates is above, none of its upper ordinates below, those of a
    feature. *)
Theorem getFeaturesExtent_covers
  (geometryExtent : Geometry → list float) (c : gmap string Projection)
  (projectionCode : string) (f1 f2 : FeatureArg) (fs : list FeatureArg)
  (g1 g2 : Geometry) (gs : list Geometry) :
  Forall2 (λ f g, olf_geometry (olFeatureOf f) = Some g)
          (f1 :: f2 :: fs) (g1 :: g2 :: gs) →
  Forall (λ g, properExtent (geometryExtent g)) (g1 :: g2 :: gs) →
  ∃ r, getFeaturesExtent geometryExtent c (f1 :: f2 :: fs) projectionCode
       = Ok (Some r)
       ∧ properExtent r
       ∧ Forall (λ g, covers r (geometryExtent g)) (g1 :: g2 :: gs).
Proof.
  intros HF Hp. exists (foldl extend (geometryExtent g1)
                          (geometryExtent <$> g2 :: gs)).
  split.
  - unfold getFeaturesExtent.
    rewrite (mapR_geometries geometryExtent _ (g1 :: g2 :: gs));
      [reflexivity|by apply Forall2_fmap_l].
  - apply Forall_cons in Hp as [Hp1 Hp].
    destruct (foldl_extend_covers (geometryExtent <$> g2 :: gs)
                (geometryExtent g1) Hp1) as (HpR & C1 & CF).
    { by apply Forall_fmap. }
    split; [exact HpR|]. constructor; [exact C1|].
    rewrite Forall_fmap in CF. exact CF.
Qed.

Lemma getFeaturesExtent_covers_witness :
  ∃ r, getFeaturesExtent pointExtent catalogue
         [featureOf (Point [3; 9]%float); featureOf (Point [5; 7]%float);
          featureOf (Point [-1; 8]%float)] "EPSG:25830"
       = Ok (Some r)
       ∧ covers r [5; 7; 5; 7]%float.
Proof.
  destruct (getFeaturesExtent_covers pointExtent catalogue "EPSG:25830"
              (featureOf (Point [3; 9]%float))
              (featureOf (Point [5; 7]%float))
              [featureOf (Point [-1; 8]%float)]
              (Point [3; 9]%float) (Point [5; 7]%float)
              [Point [-1; 8]%float]) as (r & Hr & _ & Hc).
  - repeat constructor.
  - repeat constructor; do 4 eexists; repeat split; reflexivity.
  - exists r. split; [exact Hr|].
    apply Forall_cons in Hc as [_ Hc]. by apply Forall_cons in Hc as [Hc _].
Defined.

(** ** The attributions of the features in view *)

Lemma elem_of_filter_from {A} (cb : A → Z → bool) (a : list A) (i : Z)
  (e : A) :
  e ∈ filter_from cb i a
  ↔ ∃ k : nat, a !! k = Some e ∧ cb e (i + Z.of_nat k)%Z = true.
Proof.
  revert i. induction a as [|x a IH]; intros i; cbn [filter_from].
  - split; [by intros ?%elem_of_nil|by intros (k & ? & _)].
  - assert (e ∈ filter_from cb (i + 1) a
            ↔ ∃ k : nat, a !! k = Some e
                         ∧ cb e (i + Z.of_nat (S k))%Z = true) as IH'.
    { rewrite IH. split; intros (k & Hk & Hcb); exists k; split; try done.
      - by replace (i + Z.of_nat (S k))%Z with (i + 1 + Z.of_nat k)%Z by lia.
      - by replace (i + 1 + Z.of_nat k)%Z with (i + Z.of_nat (S k))%Z by lia. }
    assert (cb x i = true → ∃ k : nat, (x :: a) !! k = Some x
                              ∧ cb x (i + Z.of_nat k)%Z = true) as Hhead.
    { intros Hx. exists 0. split; [reflexivity|].
      by replace (i + Z.of_nat 0)%Z with i by lia. }
    destruct (cb x i) eqn:Hx.
    + rewrite elem_of_cons, IH'. split.
      * intros [->|(k & Hk & Hcb)]; [by apply Hhead|by exists (S k)].
      * intros ([|k] & Hk & Hcb); [left; by injection Hk|right; by exists k].
    + rewrite IH'. split.
      * intros (k & Hk & Hcb). by exists (S k).
      * intros ([|k] & Hk & Hcb); [|by exists k].
        injection Hk as ->.
        replace (i + Z.of_nat 0)%Z with i in Hcb by lia. congruence.
Qed.

Lemma filter_from_sublist {A} (cb : A → Z → bool) (a : list A) (i : Z) :
  sublist (filter_from cb i a) a.
Proof.
  revert i. induction a as [|x a IH]; intros i; cbn [filter_from].
  - constructor.
  - destruct (cb x i); by constructor.
Qed.

Lemma filter_from_NoDup {A K} (key : A → K) (cb : A → Z → bool)
  (a : list A) (i : Z) :
  (∀ (k1 k2 : nat) e1 e2,
     a !! k1 = Some e1 → a !! k2 = Some e2 →
     cb e1 (i + Z.of_nat k1)%Z = true → cb e2 (i + Z.of_nat k2)%Z = true →
     key e1 = key e2 → k1 = k2) →
  NoDup (key <$> filter_from cb i a).
Proof.
  revert i. induction a as [|x a IH]; intros i Hinj; cbn [filter_from].
  - constructor.
  - assert (NoDup (key <$> filter_from cb (i + 1) a)) as Hrest.
    { apply IH. intros k1 k2 e1 e2 H1 H2 C1 C2 Hkey.
      enough (S k1 = S k2) by lia.
      apply (Hinj (S k1) (S k2) e1 e2); try done.
      - by replace (i + Z.of_nat (S k1))%Z with (i + 1 + Z.of_nat k1)%Z by lia.
      - by replace (i + Z.of_nat (S k2))%Z with (i + 1 + Z.of_nat k2)%Z by lia. }
    destruct (cb x i) eqn:Hx; [|exact Hrest].
    rewrite fmap_cons. constructor; [|exact Hrest].
    intros (e & Hkey & (k & Hk & Hcb)%elem_of_filter_from)%list_elem_of_fmap.
    enough (0 = S k) by lia.
    apply (Hinj 0 (S k) x e); try done.
    + by replace (i + Z.of_nat 0)%Z with i by lia.
    + by replace (i + Z.of_nat (S k))%Z with (i + 1 + Z.of_nat k)%Z by lia.
Qed.

Lemma indexOf_from_first `{EqDecision A} (a : list A) (x : A) (i : Z)
  (k : nat) :
  a !! k = Some x → (∀ j, j < k → a !! j ≠ Some x) →
  indexOf_from a x i = (i + Z.of_nat k)%Z.
Proof.
  revert i k. induction a as [|y a IH]; intros i k Hk Hfirst; [done|].
  cbn [indexOf_from]. destruct k as [|k].
  - injection Hk as ->. rewrite decide_True by done. lia.
  - rewrite decide_False.
    + rewrite (IH (i + 1)%Z k); [lia|done|].
      intros j Hj. apply (Hfirst (S j)). lia.
    + intros ->. by apply (Hfirst 0); [lia|].
Qed.

Lemma indexOf_from_bound `{EqDecision A} (a : list A) (x : A) (i : Z) :
  indexOf_from a x i = (-1)%Z ∨ (i ≤ indexOf_from a x i)%Z.
Proof.
  revert i. induction a as [|y a IH]; intros i; cbn [indexOf_from].
  - by left.
  - destruct (decide (y = x)); [right; lia|].
    destruct (IH (i + 1)%Z); [by left|right; lia].
Qed.

Lemma indexOf_from_found `{EqDecision A} (a : list A) (x : A) (i : Z)
  (k : nat) :
  indexOf_from a x i = (i + Z.of_nat k)%Z → (0 ≤ i)%Z →
  a !! k = Some x ∧ ∀ j, j < k → a !! j ≠ Some x.
Proof.
  revert i k. induction a as [|y a IH]; intros i k; cbn [indexOf_from].
  - lia.
  - destruct (decide (y = x)) as [->|Hne]; intros Hk Hi.
    + assert (k = 0) as -> by lia. split; [done|lia].
    + destruct k as [|k].
      * destruct (indexOf_from_bound a x (i + 1)); lia.
      * destruct (IH (i + 1)%Z k) as [Hx Hfirst]; [lia|lia|].
        split; [done|]. intros [|j] Hj; cbn; [congruence|].
        apply Hfirst. lia.
Qed.

(** [getMapAttributions] never lists an attribution twice, and keeps the
    entries in the order of the features the filter let through. *)
Theorem getMapAttributions_no_repeats {F : Type}
  (getAttribute : F → string → option string)
  (intersect : list (list (list float)) → list F → list F)
  (this : AttributionsState F) :
  NoDup (attribution <$> getMapAttributions getAttribute intersect this)
  ∧ sublist (getMapAttributions getAttribute intersect this)
            (attributionOf getAttribute this
               <$> filteredFeatures intersect this).
Proof.
  unfold getMapAttributions, filterArray. split.
  - apply filter_from_NoDup.
    intros k1 k2 e1 e2 _ _ C1%bool_decide_eq_true C2%bool_decide_eq_true Hkey.
    rewrite Hkey in C1. lia.
  - apply filter_from_sublist.
Qed.

(** The entries [getMapAttributions] lists are those of the features that
    the filter let through and that no earlier such feature shares its
    attribution with: of the features of one attribution, the first gives
    the link. *)
Theorem getMapAttributions_first {F : Type}
  (getAttribute : F → string → option string)
  (intersect : list (list (list float)) → list F → list F)
  (this : AttributionsState F) (e : AttributionOption) :
  e ∈ getMapAttributions getAttribute intersect this
  ↔ ∃ earlier feature later,
      filteredFeatures intersect this = earlier ++ feature :: later
      ∧ e = attributionOf getAttribute this feature
      ∧ ∀ f, f ∈ earlier →
             getAttribute f (attributionParam_ this)
             ≠ getAttribute feature (attributionParam_ this).
Proof.
  unfold getMapAttributions, filterArray. rewrite elem_of_filter_from.
  set (view := filteredFeatures intersect this).
  set (entry := attributionOf getAttribute this).
  split.
  - intros (k & Hk & Hcb%bool_decide_eq_true).
    apply list_lookup_fmap_Some in Hk as (feature & -> & Hf).
    destruct (indexOf_from_found _ _ 0 k Hcb) as [_ Hfirst]; [lia|].
    exists (take k view), feature, (drop (S k) view).
    split; [symmetry; by apply take_drop_middle|]. split; [reflexivity|].
    intros f (j & (Hj & Hjk)%lookup_take_Some)%list_elem_of_lookup_1 Heq.
    apply (Hfirst j Hjk).
    rewrite !list_lookup_fmap, Hj. cbn. by rewrite Heq.
  - intros (earlier & feature & later & Hview & -> & Hfirst).
    exists (length earlier). split.
    + rewrite list_lookup_fmap, Hview, list_lookup_middle by done. done.
    + apply bool_decide_eq_true. unfold indexOf.
      rewrite (indexOf_from_first _ _ 0 (length earlier)); [lia| |].
      * by rewrite !list_lookup_fmap, Hview, list_lookup_middle.
      * intros j Hj. rewrite !list_lookup_fmap, Hview.
        rewrite lookup_app_l by done.
        destruct (earlier !! j) as [f|] eqn:Hf; [|done]. cbn.
        intros [= Heq]. apply (Hfirst f); [|done].
        by apply list_elem_of_lookup_2 in Hf.
Qed.
